(** * Content extractor (lib/extractor.ts): a shallow embedding

    The extractor turns a parsed HTML document into a record of page
    metadata, headings with their section content and, when there are no
    headings, a fallback text.  This development embeds the functions of
    the extractor as Rocq functions over a tree of element and text nodes
    and proves properties of them.

    Conventions.
    - A JavaScript string is a [string]; an [ascii] stands for one code
      unit below 256 (Latin-1), so [length] is the JavaScript [length].
    - A regular expression is a value of [regex], run by the backtracking
      matcher [rmatch]; only the constructs the extractor uses exist.
    - The document is what [cheerio.load] returns: the list of the
      children of the root.  Fetching and parsing are outside the model. *)

From Stdlib Require Import String Ascii List Bool Arith NArith Lia QArith DecimalString.
From Stdlib Require Import Lqa.
From stdpp Require Import base option list gmap strings.
Import ListNotations.

Local Open Scope nat_scope.

(** ** JavaScript strings *)

Module Js.

Definition code (c : ascii) : N := N_of_ascii c.

(** [\s] and the white space of [trim], on code units below 256:
    TAB, LF, VT, FF, CR, SPACE and NBSP. *)
Definition is_space (c : ascii) : bool :=
  let n := code c in
  (((9 <=? n) && (n <=? 13)) || (n =? 32) || (n =? 160))%N.

(** [\d] *)
Definition is_digit (c : ascii) : bool :=
  let n := code c in ((48 <=? n) && (n <=? 57))%N.

(** [toLowerCase] of one code unit: A-Z and the Latin-1 capitals. *)
Definition lower (c : ascii) : ascii :=
  let n := code c in
  if (((65 <=? n) && (n <=? 90))
      || ((192 <=? n) && (n <=? 222) && negb (n =? 215)))%N
  then ascii_of_N (n + 32) else c.

Fixpoint toLowerCase (s : string) : string :=
  match s with
  | EmptyString => EmptyString
  | String c r => String (lower c) (toLowerCase r)
  end.

Definition eqc (a b : ascii) : bool := Ascii.eqb a b.

Fixpoint drop (n : nat) (s : string) : string :=
  match n, s with
  | S k, String _ r => drop k r
  | _, _ => s
  end.

(** [s.substring(0, n)] *)
Fixpoint take (n : nat) (s : string) : string :=
  match n, s with
  | S k, String c r => String c (take k r)
  | _, _ => EmptyString
  end.

(** [s.charAt(i)]: the empty string out of range. *)
Definition charAt (i : nat) (s : string) : string := take 1 (drop i s).

Definition is_empty (s : string) : bool :=
  match s with EmptyString => true | _ => false end.

(** A string in a condition: the empty string is falsy. *)
Definition truthy (s : string) : bool := negb (is_empty s).

Fixpoint trimStart (s : string) : string :=
  match s with
  | EmptyString => EmptyString
  | String c r => if is_space c then trimStart r else s
  end.

Fixpoint trimEnd (s : string) : string :=
  match s with
  | EmptyString => EmptyString
  | String c r =>
      let r' := trimEnd r in
      if is_space c && is_empty r' then EmptyString else String c r'
  end.

Definition trim (s : string) : string := trimEnd (trimStart s).

(** [xs.join(sep)] *)
Fixpoint join (sep : string) (xs : list string) : string :=
  match xs with
  | [] => EmptyString
  | [x] => x
  | x :: rest => x +:+ sep +:+ join sep rest
  end.

(** [sep.repeat(n)] *)
Fixpoint repeat (s : string) (n : nat) : string :=
  match n with
  | O => EmptyString
  | S k => s +:+ repeat s k
  end.

(** *** Regular expressions *)

Inductive atom : Type :=
| Chr (c : ascii)          (* a literal character *)
| ChrI (c : ascii)         (* a literal letter under the [i] flag, given in lower case *)
| Dig                      (* \d *)
| Spc                      (* \s *)
| Rng (lo hi : ascii).     (* [lo-hi] *)

Inductive item : Type :=
| One (a : atom)
| Opt (a : atom)           (* a? *)
| Star (a : atom)          (* a* *)
| Plus (a : atom)          (* a+ *)
| End.                     (* $ *)

Definition regex := list item.

Definition amatch (a : atom) (c : ascii) : bool :=
  match a with
  | Chr x => eqc c x
  | ChrI x => eqc (lower c) x && (code c <? 128)%N
  | Dig => is_digit c
  | Spc => is_space c
  | Rng lo hi => ((code lo <=? code c) && (code c <=? code hi))%N
  end.

(** [star a k s]: a greedy [a*] followed by the rest [k] of the
    expression; a shorter run is tried when the rest fails. *)
Fixpoint star (a : atom) (k : string -> option nat) (s : string) : option nat :=
  match s with
  | String c r =>
      if amatch a c then
        match star a k r with
        | Some n => Some (S n)
        | None => k s
        end
      else k s
  | EmptyString => k s
  end.

(** [rmatch p s]: the length of the match of [p] at the start of [s], with
    greedy quantifiers and backtracking, as the engine of JavaScript
    finds it. *)
Fixpoint rmatch (p : regex) : string -> option nat :=
  match p with
  | [] => fun _ => Some 0
  | One a :: p' => fun s =>
      match s with
      | String c r => if amatch a c then S <$> rmatch p' r else None
      | EmptyString => None
      end
  | Opt a :: p' => fun s =>
      match s with
      | String c r =>
          if amatch a c then
            match rmatch p' r with
            | Some n => Some (S n)
            | None => rmatch p' s
            end
          else rmatch p' s
      | EmptyString => rmatch p' s
      end
  | Star a :: p' => star a (rmatch p')
  | Plus a :: p' => fun s =>
      match s with
      | String c r =>
          if amatch a c then S <$> star a (rmatch p') r else None
      | EmptyString => None
      end
  | End :: p' => fun s =>
      match s with
      | EmptyString => rmatch p' s
      | String _ _ => None
      end
  end.

(** The characters of a literal, case-sensitive and under the [i] flag. *)
Fixpoint lit (s : string) : regex :=
  match s with
  | EmptyString => []
  | String c r => One (Chr c) :: lit r
  end.

Fixpoint liti (s : string) : regex :=
  match s with
  | EmptyString => []
  | String c r => One (ChrI c) :: liti r
  end.

(** [/p/.test(s)]: a match at some position of [s]. *)
Fixpoint test (p : regex) (s : string) : bool :=
  match rmatch p s with
  | Some _ => true
  | None =>
      match s with
      | EmptyString => false
      | String _ r => test p r
      end
  end.

(** [/^p$/.test(s)] *)
Definition test_whole (p : regex) (s : string) : bool :=
  bool_decide (is_Some (rmatch (p ++ [End]) s)).

(** [/^(p1|p2|...)$/.test(s)] and [/p1|p2|.../.test(s)] *)
Definition test_whole_any (ps : list regex) (s : string) : bool :=
  existsb (fun p => test_whole p s) ps.

Definition test_any (ps : list regex) (s : string) : bool :=
  existsb (fun p => test p s) ps.

(** [s.includes(sub)] *)
Definition includes (sub s : string) : bool := test (lit sub) s.

(** [s.replace(/p/g, rep)]: the matches are found from left to right in
    [s] itself, each one after the end of the one before; [skip] counts
    the characters of the current match still to drop. *)
Fixpoint replace_go (p : regex) (rep : string) (skip : nat) (s : string) : string :=
  match s with
  | EmptyString => EmptyString
  | String c r =>
      match skip with
      | S k => replace_go p rep k r
      | O =>
          match rmatch p s with
          | Some (S k) => rep +:+ replace_go p rep k r
          | _ => String c (replace_go p rep 0 r)
          end
      end
  end.

Definition replace_all (p : regex) (rep : string) (s : string) : string :=
  replace_go p rep 0 s.

End Js.

(** ** Text cleaning *)

Definition re_edit : Js.regex := Js.liti "[edit]".
Definition re_citation : Js.regex := Js.liti "[citation needed]".
Definition re_note : Js.regex :=
  Js.liti "[note " ++ [Js.Plus Js.Dig; Js.One (Js.Chr "]")].
Definition re_ref : Js.regex :=
  [Js.One (Js.Chr "["); Js.Plus Js.Dig; Js.One (Js.Chr "]")].

(** [text.replace(/\s+/g, ' ')] *)
Definition normalize_ws (s : string) : string :=
  Js.replace_all [Js.Plus Js.Spc] " " s.

(** The four [replace(..., '')] calls of [cleanText], in their order. *)
Definition strip_markers (s : string) : string :=
  Js.replace_all re_ref ""
    (Js.replace_all re_note ""
       (Js.replace_all re_citation ""
          (Js.replace_all re_edit "" s))).

Definition cleanText (text : string) : string :=
  Js.trim (strip_markers (normalize_ws text)).

(** ** The parsed document *)

Module Dom.

(** The name and the attributes of an element, as the parser stores
    them: names in lower case, the first of two attributes of one name. *)
Record head : Type := Head { tag : string; attrs : list (string * string) }.

#[warnings="-register-all"] Inductive node : Type :=
| Text (data : string)
| Comment (data : string)
| Elem (h : head) (kids : list node).

(** An element in its place: the element, the nodes that follow it
    under its parent, and the place of its parent (none for a child of
    the root).  Two places of one document are equal only if they are
    the same place, so a [loc] stands for the element object. *)
#[warnings="-register-all"] Inductive loc : Type :=
| Loc (el : node) (after : list node) (up : option loc).

Definition el (l : loc) : node := let 'Loc n _ _ := l in n.
Definition after (l : loc) : list node := let 'Loc _ a _ := l in a.
Definition up (l : loc) : option loc := let 'Loc _ _ u := l in u.

Definition no_head : head := Head "" [].

Definition head_of (n : node) : head :=
  match n with Elem h _ => h | _ => no_head end.

Definition kids_of (n : node) : list node :=
  match n with Elem _ ks => ks | _ => [] end.

Definition is_elem (n : node) : bool :=
  match n with Elem _ _ => true | _ => false end.

Definition hd_of (l : loc) : head := head_of (el l).
Definition parent_head (l : loc) : option head := hd_of <$> up l.

(** [attr(name)]: [None] is [undefined]. *)
Fixpoint lookup_attr (name : string) (a : list (string * string)) : option string :=
  match a with
  | [] => None
  | (k, v) :: r => if String.eqb k name then Some v else lookup_attr name r
  end.

Definition attr (name : string) (h : head) : option string :=
  lookup_attr name (attrs h).

(** [attr(name) || ''] *)
Definition attr_or_empty (name : string) (h : head) : string :=
  match attr name h with
  | Some v => if Js.is_empty v then EmptyString else v
  | None => EmptyString
  end.

(** [(prop('tagName') || '').toLowerCase()] and [tagName.toLowerCase()]:
    the stored name, which [prop] upper-cases and the caller lower-cases
    again. *)
Definition tagName (h : head) : string := Js.toLowerCase (tag h).

(** [text()]: the text nodes below a node, in document order. *)
Fixpoint text (n : node) : string :=
  match n with
  | Text d => d
  | Comment _ => EmptyString
  | Elem _ ks =>
      (fix texts (ks : list node) : string :=
         match ks with
         | [] => EmptyString
         | k :: r => text k +:+ texts r
         end) ks
  end.

Definition text_of (l : loc) : string := text (el l).

(** The elements of a subtree in document order, each in its place. *)
Fixpoint subtree (up : option loc) (after : list node) (n : node) : list loc :=
  match n with
  | Elem _ ks =>
      let self := Loc n after up in
      self ::
        (fix forest (ks : list node) : list loc :=
           match ks with
           | [] => []
           | k :: r => subtree (Some self) r k ++ forest r
           end) ks
  | _ => []
  end.

Fixpoint forest (up : option loc) (ks : list node) : list loc :=
  match ks with
  | [] => []
  | k :: r => subtree up r k ++ forest up r
  end.

(** The elements of the document: what [$('*')] selects. *)
Definition all_elements (doc : list node) : list loc := forest None doc.

(** The elements below an element, itself excluded. *)
Definition descendants (l : loc) : list loc := forest (Some l) (kids_of (el l)).

(** The elements of a list of nodes, each in its place under [up]. *)
Fixpoint elems_in (up : option loc) (ks : list node) : list loc :=
  match ks with
  | [] => []
  | k :: r => (if is_elem k then [Loc k r up] else []) ++ elems_in up r
  end.

(** The element siblings after an element: what repeated [next()]
    visits. *)
Definition following (l : loc) : list loc := elems_in (up l) (after l).

(** [parents().length] *)
Fixpoint depth_of (l : loc) : nat :=
  match l with
  | Loc _ _ None => 0
  | Loc _ _ (Some p) => S (depth_of p)
  end.

(** *** Selectors *)

Inductive simple : Type :=
| STag (t : string)                 (* t *)
| SClass (c : string)               (* .c *)
| SId (i : string)                  (* #i *)
| SHas (name : string)              (* [name] *)
| SEq (name value : string)         (* [name="value"] *)
| SSub (name value : string).       (* [name*="value"] *)

(** A compound selector: every part holds of the element. *)
Definition compound := list simple.

Inductive selector : Type :=
| Sel (c : compound)
| Child (p c : compound).           (* p > c *)

(** The names of a class attribute: the selector engine tests [.name]
    with white space, [\s], on either side of the name, so every
    white-space character of JavaScript separates two names. *)
Fixpoint split_names (cur : string) (s : string) : list string :=
  match s with
  | EmptyString => [cur]
  | String c r =>
      if Js.is_space c then cur :: split_names EmptyString r
      else split_names (cur +:+ String c EmptyString) r
  end.

Definition class_names (h : head) : list string :=
  match attr "class" h with
  | Some v => filter (fun s => s <> EmptyString) (split_names EmptyString v)
  | None => []
  end.

Definition simple_matches (s : simple) (h : head) : bool :=
  match s with
  | STag t => String.eqb (tag h) t
  | SClass c => existsb (String.eqb c) (class_names h)
  | SId i => match attr "id" h with Some v => String.eqb v i | None => false end
  | SHas name => bool_decide (is_Some (attr name h))
  | SEq name value =>
      match attr name h with Some v => String.eqb v value | None => false end
  | SSub name value =>
      match attr name h with Some v => Js.includes value v | None => false end
  end.

Definition compound_matches (c : compound) (h : head) : bool :=
  forallb (fun s => simple_matches s h) c.

(** Whether an element with head [h] and parent [ph] matches. *)
Definition sel_matches (s : selector) (ph : option head) (h : head) : bool :=
  match s with
  | Sel c => compound_matches c h
  | Child p c =>
      compound_matches c h
      && match ph with Some x => compound_matches p x | None => false end
  end.

(** A selector list [s1, s2, ...]. *)
Definition matches (ss : list selector) (l : loc) : bool :=
  existsb (fun s => sel_matches s (parent_head l) (hd_of l)) ss.

Definition tags (ts : list string) : list selector :=
  map (fun t => Sel [STag t]) ts.

(** Equality of element objects. *)
Definition head_eqb (a b : head) : bool :=
  String.eqb (tag a) (tag b)
  && bool_decide (attrs a = attrs b).

Fixpoint node_eqb (a b : node) : bool :=
  match a, b with
  | Text x, Text y => String.eqb x y
  | Comment x, Comment y => String.eqb x y
  | Elem h ks, Elem h' ks' =>
      head_eqb h h'
      && (fix all2 (ks ks' : list node) : bool :=
            match ks, ks' with
            | [], [] => true
            | k :: r, k' :: r' => node_eqb k k' && all2 r r'
            | _, _ => false
            end) ks ks'
  | _, _ => false
  end.

Fixpoint nodes_eqb (ks ks' : list node) : bool :=
  match ks, ks' with
  | [], [] => true
  | k :: r, k' :: r' => node_eqb k k' && nodes_eqb r r'
  | _, _ => false
  end.

Fixpoint loc_eqb (a b : loc) : bool :=
  match a, b with
  | Loc n af u, Loc n' af' u' =>
      node_eqb n n' && nodes_eqb af af'
      && match u, u' with
         | None, None => true
         | Some p, Some p' => loc_eqb p p'
         | _, _ => false
         end
  end.

(** The first occurrence of every element of a list. *)
Fixpoint uniq_go {A} (eqb : A -> A -> bool) (seen : list A) (xs : list A) : list A :=
  match xs with
  | [] => []
  | x :: r =>
      if existsb (eqb x) seen then uniq_go eqb seen r
      else x :: uniq_go eqb (x :: seen) r
  end.

Definition uniq_locs (ls : list loc) : list loc := uniq_go loc_eqb [] ls.

(** [$(selector)] on the document. *)
Definition select (ss : list selector) (doc : list node) : list loc :=
  filter (fun l => matches ss l) (all_elements doc).

(** [$x.find(selector)]: the matching elements below the elements of the
    selection, each once, in document order. *)
Definition find (ss : list selector) (sel : list loc) : list loc :=
  uniq_locs (flat_map (fun l => filter (fun d => matches ss d) (descendants l)) sel).

Definition find1 (ss : list selector) (l : loc) : list loc :=
  filter (fun d => matches ss d) (descendants l).

End Dom.

Import Dom.

(** ** Configuration *)

Definition tg (t : string) : selector := Sel [STag t].
Definition cl (c : string) : selector := Sel [SClass c].
Definition idn (i : string) : selector := Sel [SId i].
Definition role (r : string) : selector := Sel [SEq "role" r].
Definition class_sub (v : string) : selector := Sel [SSub "class" v].

Definition NOISE_SELECTORS : list selector :=
  [ tg "nav"; tg "footer"; tg "header"; tg "aside"; tg "noscript"; tg "script";
    tg "style"; tg "iframe"; tg "svg";
    role "navigation"; role "banner"; role "contentinfo"; role "complementary";
    cl "nav"; cl "navbar"; cl "navigation"; cl "menu"; cl "sidebar"; cl "footer";
    cl "header";
    cl "advertisement"; cl "ad"; cl "ads"; cl "social-share"; cl "social-links";
    cl "share-buttons";
    cl "cookie"; cl "cookie-banner"; cl "cookie-consent"; cl "popup"; cl "modal";
    cl "overlay";
    cl "breadcrumb"; cl "breadcrumbs"; cl "pagination"; cl "pager";
    cl "comments"; cl "comment-section"; cl "related-posts"; cl "recommended";
    class_sub "cookie"; class_sub "popup"; class_sub "modal"; class_sub "banner";
    class_sub "newsletter"; class_sub "subscribe"; class_sub "promo";
    cl "mw-editsection"; cl "noprint"; cl "navbox"; cl "navbox-styles";
    cl "infobox";
    idn "toc"; cl "toc"; cl "reference"; cl "mw-jump-link"; cl "mw-references-wrap";
    cl "interlanguage-link"; cl "mw-indicator";
    Child [SClass "mw-parser-output"] [SClass "hatnote"];
    Sel [SSub "href" "action=edit"]; cl "catlinks"; cl "printfooter";
    idn "siteSub"; idn "contentSub";
    cl "mw-heading-collapsible"; cl "sidebar"; idn "mw-navigation"; idn "mw-panel";
    cl "vector-menu"; cl "mw-portlet"; idn "p-lang-btn";
    cl "mw-interlanguage-selector";
    idn "nav"; idn "navigation"; idn "menu"; idn "sidebar"; idn "footer";
    idn "header";
    idn "comments"; idn "related"; idn "advertisement" ].

Definition CONTENT_CONTAINER_SELECTORS : list selector :=
  [ tg "main"; tg "article"; role "main"; idn "content"; idn "main-content";
    idn "main"; cl "content"; cl "post"; cl "article"; cl "entry-content";
    cl "post-content"; cl "article-content"; cl "page-content";
    cl "main-content" ].

(** ** Meta extraction *)

(** [a || b || ... || null] over strings that may be [undefined]. *)
Fixpoint first_truthy (xs : list (option string)) : option string :=
  match xs with
  | [] => None
  | Some v :: r => if Js.truthy v then Some v else first_truthy r
  | None :: r => first_truthy r
  end.

(** [text()] of a selection. *)
Definition sel_text (ls : list loc) : string :=
  fold_right (fun l acc => text_of l +:+ acc) EmptyString ls.

(** [attr(name)] of a selection: of its first element. *)
Definition sel_attr (name : string) (ls : list loc) : option string :=
  match ls with
  | l :: _ => attr name (hd_of l)
  | [] => None
  end.

(** [first()] *)
Definition first_of (ls : list loc) : list loc := firstn 1 ls.

Definition meta_content (key value : string) (doc : list node) : option string :=
  Js.trim <$> sel_attr "content" (select [Sel [STag "meta"; SEq key value]] doc).

Definition extractMetaTitle (doc : list node) : option string :=
  first_truthy
    [ Some (Js.trim (sel_text (select [tg "title"] doc)));
      meta_content "property" "og:title" doc;
      meta_content "name" "twitter:title" doc;
      Some (Js.trim (sel_text (first_of (select [tg "h1"] doc)))) ].

Definition extractMetaDescription (doc : list node) : option string :=
  first_truthy
    [ meta_content "name" "description" doc;
      meta_content "property" "og:description" doc;
      meta_content "name" "twitter:description" doc ].

(** ** Noise removal *)

(** [$(...).remove()] for elements chosen by their own head and the head
    of their parent: the chosen elements go, with all below them.  The
    selection is made before the first removal, so the parent an element
    is tested with is its parent in the tree as it was. *)
Fixpoint prune (rm : option head -> head -> bool) (n : node) : node :=
  match n with
  | Elem h ks =>
      Elem h
        ((fix go (ks : list node) : list node :=
            match ks with
            | [] => []
            | k :: r =>
                if is_elem k && rm (Some h) (head_of k) then go r
                else prune rm k :: go r
            end) ks)
  | _ => n
  end.

Fixpoint prune_forest (rm : option head -> head -> bool) (ph : option head)
    (ks : list node) : list node :=
  match ks with
  | [] => []
  | k :: r =>
      if is_elem k && rm ph (head_of k) then prune_forest rm ph r
      else prune rm k :: prune_forest rm ph r
  end.

Definition remove_where (rm : option head -> head -> bool) (doc : list node) : list node :=
  prune_forest rm None doc.

Definition by_selector (s : selector) : option head -> head -> bool :=
  fun ph h => sel_matches s ph h.

Definition noisePatterns : list string :=
  [ "footer"; "nav"; "menu"; "sidebar"; "widget"; "advertisement";
    "social"; "share"; "comment"; "related"; "recommended"; "promo";
    "newsletter"; "subscribe"; "cookie"; "gdpr"; "consent" ].

(** The body of the loop over [$('[class]')]: whether the element is
    removed. *)
Definition noisy_class (h : head) : bool :=
  match attr "class" h with
  | Some _ =>
      let lowerClass := Js.toLowerCase (attr_or_empty "class" h) in
      existsb
        (fun pattern =>
           Js.includes pattern lowerClass && negb (Js.includes "content" lowerClass))
        noisePatterns
  | None => false
  end.

Definition hidden_selectors : list selector :=
  [ Sel [SHas "hidden"];
    Sel [SSub "style" "display: none"];
    Sel [SSub "style" "display:none"];
    Sel [SEq "aria-hidden" "true"] ].

Definition remove_each (ss : list selector) (doc : list node) : list node :=
  fold_left (fun d s => remove_where (by_selector s) d) ss doc.

Definition removeNoiseElements (doc : list node) : list node :=
  let doc1 := remove_each NOISE_SELECTORS doc in
  let doc2 := remove_where (fun _ h => noisy_class h) doc1 in
  remove_each hidden_selectors doc2.

(** ** Content container identification *)

(** The numbers of the scoring are rationals here; the extractor has
    doubles.  A quotient of two lengths compares with 0.5 in doubles as
    it does in the rationals, so the tests on the link density are
    exact; the scores themselves are exact values, not rounded ones, and
    two candidates whose exact scores are equal or nearly so can come in
    another order in the program.  No statement below says which of
    several candidates is returned. *)
Definition qdiv (a b : nat) : Q := Z.of_nat a # Pos.of_nat b.

Definition qmin (a b : Q) : Q := if Qle_bool a b then a else b.

Definition qlt (a b : Q) : bool := negb (Qle_bool b a).

Definition getTextLength (l : loc) : nat :=
  String.length (Js.trim (normalize_ws (text_of l))).

Definition calculateTextToTagRatio (l : loc) : Q :=
  let textLength := getTextLength l in
  let tagCount := length (descendants l) + 1 in
  if tagCount =? 0 then 0%Q else qdiv textLength tagCount.

Definition linkTextLength (l : loc) : nat :=
  fold_left (fun acc a => acc + getTextLength a) (find1 [tg "a"] l) 0.

Definition calculateLinkDensity (l : loc) : Q :=
  let totalText := getTextLength l in
  if totalText =? 0 then 1%Q else qdiv (linkTextLength l) totalText.

Definition re_content_like : list Js.regex :=
  map Js.lit ["content"; "article"; "post"; "entry"; "body"; "main"].

Definition re_sidebar_like : list Js.regex :=
  map Js.lit ["sidebar"; "widget"; "aside"; "related"; "popular"; "trending"].

Record candidate : Type := Candidate { c_el : loc; c_score : Q }.

(** [candidates.sort((a, b) => b.score - a.score)]: by falling score,
    equal scores in their first order. *)
Fixpoint insert_by_score (x : candidate) (cs : list candidate) : list candidate :=
  match cs with
  | [] => [x]
  | y :: r =>
      if Qle_bool (c_score y) (c_score x) then x :: cs
      else y :: insert_by_score x r
  end.

Definition sort_by_score (cs : list candidate) : list candidate :=
  fold_right insert_by_score [] cs.

Section Container.

(** [html()] of the DOM library: the markup of what is below an
    element. *)
Variable innerHTML : node -> string.

(** The body of the loop of [findHighestTextDensityElement]: the
    candidate an element gives, if any. *)
Definition score_element (l : loc) : option candidate :=
  let textLength := getTextLength l in
  if textLength <? 200 then None
  else
    let linkDensity := calculateLinkDensity l in
    if qlt (1 # 2) linkDensity then None
    else
      let textToTagRatio := calculateTextToTagRatio l in
      let htmlLength := String.length (innerHTML (el l)) in
      if htmlLength =? 0 then None
      else
        let textDensity := qdiv textLength htmlLength in
        let normalizedLength := qmin (qdiv textLength 5000) 1 in
        let normalizedDensity := textDensity in
        let normalizedRatio := qmin (textToTagRatio / 50) 1 in
        let score :=
          (normalizedLength * (4 # 10) + normalizedDensity * (3 # 10)
           + normalizedRatio * (3 # 10))%Q in
        let tagName := tagName (hd_of l) in
        let score := if String.eqb tagName "article" then (score * (15 # 10))%Q else score in
        let score := if String.eqb tagName "main" then (score * (14 # 10))%Q else score in
        let className := Js.toLowerCase (attr_or_empty "class" (hd_of l)) in
        let id := Js.toLowerCase (attr_or_empty "id" (hd_of l)) in
        let score :=
          if Js.test_any re_content_like (className +:+ id)
          then (score * (13 # 10))%Q else score in
        let depth := depth_of l in
        let score := (score / (1 + inject_Z (Z.of_nat depth) * (5 # 100)))%Q in
        let score :=
          if Js.test_any re_sidebar_like (className +:+ id)
          then (score * (3 # 10))%Q else score in
        Some (Candidate l score).

Definition candidates_of (doc : list node) : list candidate :=
  omap score_element (select (tags ["div"; "section"; "article"; "main"]) doc).


Definition findHighestTextDensityElement (doc : list node) : list loc :=
  let bestElement := select [tg "body"] doc in
  let bestScore := 0%Q in
  match sort_by_score (candidates_of doc) with
  | c :: _ => if qlt bestScore (c_score c) then [c_el c] else bestElement
  | [] => bestElement
  end.

(** One selector of the priority list: the match with the longest text,
    the first of them among equals, and its length. *)
Definition longest (found : list loc) (first : loc) : loc * nat :=
  fold_left
    (fun '(bestContainer, maxTextLength) e =>
       let textLen := getTextLength e in
       if maxTextLength <? textLen then (e, textLen)
       else (bestContainer, maxTextLength))
    found (first, getTextLength first).

Fixpoint semantic_container (sels : list selector) (doc : list node) : option loc :=
  match sels with
  | [] => None
  | s :: rest =>
      match select [s] doc with
      | [] => semantic_container rest doc
      | first :: _ as found =>
          let '(bestContainer, maxTextLength) := longest found first in
          if 100 <? maxTextLength then Some bestContainer
          else semantic_container rest doc
      end
  end.

Definition findContentContainer (doc : list node) : list loc :=
  match semantic_container CONTENT_CONTAINER_SELECTORS doc with
  | Some c => [c]
  | None => findHighestTextDensityElement doc
  end.

End Container.

(** ** List and table formatting *)

Definition nl : string := String (ascii_of_nat 10) EmptyString.

(** The bullet of an unordered item.  The literal of the source is the
    three code units U+00E2 U+20AC U+00A2; the second is not below 256,
    and the code unit 128 stands for it here.  Nothing below depends on
    the glyph. *)
Definition bullet : string := "•".

Definition decimal (n : nat) : string := NilEmpty.string_of_uint (Nat.to_uint n).

(** A string pushed when it is not empty. *)
Definition push_if (s : string) : list string :=
  if Js.truthy s then [s] else [].

Definition is_list_tag (h : head) : bool :=
  String.eqb (tag h) "ul" || String.eqb (tag h) "ol".

(** [clone()], [find('ul, ol').remove()] and [text()]: the text of an
    element without the lists below it. *)
Definition text_without_lists (n : node) : string :=
  text (prune (fun _ h => is_list_tag h) n).

Definition is_ordered (h : head) : bool := String.eqb (tagName h) "ol".

Fixpoint formatList (isOrdered : bool) (depth : nat) (lst : node) : string :=
  match lst with
  | Elem _ ks =>
      let indent := Js.repeat "  " depth in
      Js.join nl
        ((fix each_li (index : nat) (ks : list node) : list string :=
            match ks with
            | [] => []
            | k :: rest =>
                match k with
                | Elem hk lks =>
                    if String.eqb (tag hk) "li" then
                      let text := cleanText (text_without_lists k) in
                      let mark :=
                        if isOrdered then decimal (index + 1) +:+ "." else bullet in
                      (if Js.truthy text
                       then [indent +:+ mark +:+ " " +:+ text] else [])
                      ++ (fix each_nested (lks : list node) : list string :=
                            match lks with
                            | [] => []
                            | nested :: more =>
                                match nested with
                                | Elem hn _ =>
                                    if is_list_tag hn then
                                      push_if (formatList (is_ordered hn) (depth + 1) nested)
                                      ++ each_nested more
                                    else each_nested more
                                | _ => each_nested more
                                end
                            end) lks
                      ++ each_li (S index) rest
                    else each_li index rest
                | _ => each_li index rest
                end
            end) 0 ks)
  | _ => EmptyString
  end.

(** The cells of one row that have text, cleaned. *)
Definition row_cells (tr : loc) : list string :=
  flat_map (fun cell => push_if (cleanText (text_of cell)))
    (find1 (tags ["th"; "td"]) tr).

Definition extractTableContent (table : loc) : string :=
  let rows :=
    flat_map
      (fun tr =>
         let cells := row_cells tr in
         if 0 <? length cells then [Js.join " | " cells] else [])
      (find1 [tg "tr"] table) in
  Js.join nl rows.

(** ** Content of one element *)

Definition text_containers : list string :=
  ["p"; "div"; "section"; "article"; "blockquote"; "figcaption"].

Definition one_of (ts : list string) (t : string) : bool :=
  existsb (String.eqb t) ts.

Definition extractElementContent (element : loc) : list string :=
  let tagName := tagName (hd_of element) in
  if String.eqb tagName "ul" || String.eqb tagName "ol" then
    push_if (formatList (String.eqb tagName "ol") 0 (el element))
  else
    let containers :=
      if one_of text_containers tagName then
        let lists := find1 (tags ["ul"; "ol"]) element in
        if 0 <? length lists then
          push_if (cleanText (text_without_lists (el element)))
          ++ flat_map
               (fun lst => push_if (formatList (is_ordered (hd_of lst)) 0 (el lst)))
               lists
        else
          let paragraphs := find1 [tg "p"] element in
          if (0 <? length paragraphs) && negb (String.eqb tagName "p") then
            flat_map (fun p => push_if (cleanText (text_of p))) paragraphs
          else push_if (cleanText (text_of element))
      else [] in
    let definitions :=
      if String.eqb tagName "dl" then
        flat_map
          (fun item =>
             let itemTag := Dom.tagName (hd_of item) in
             let text := cleanText (text_of item) in
             if Js.truthy text then
               [if String.eqb itemTag "dt" then "**" +:+ text +:+ "**"
                else "  " +:+ text]
             else [])
          (find1 (tags ["dt"; "dd"]) element)
      else [] in
    let table :=
      if String.eqb tagName "table" then push_if (extractTableContent element)
      else [] in
    containers ++ definitions ++ table.

(** ** Heading extraction *)

(** A number read by [parseInt]: [None] is [NaN]. *)
Definition num := option nat.

(** [parseInt] of the string of at most one character that [charAt]
    returns. *)
Definition parseInt (s : string) : num :=
  match s with
  | String c EmptyString => Ascii.is_nat c
  | _ => None
  end.

(** [a <= b] on numbers: false when one is [NaN]. *)
Definition num_le (a b : num) : bool :=
  match a, b with
  | Some x, Some y => x <=? y
  | _, _ => false
  end.

Definition level_of_tag (t : string) : num := parseInt (Js.charAt 1 t).

Record HeadingWithContent : Type := Heading {
  level : num;
  text : string;
  content : list string
}.

Record FallbackContent : Type := Fallback {
  source : string;
  fb_text : string
}.

Record ExtractedContent : Type := Extracted {
  url : string;
  metaTitle : option string;
  metaDescription : option string;
  headings : list HeadingWithContent;
  fallbackContent : option FallbackContent;
  extractedAt : string
}.

Definition noiseHeadingPatterns : list Js.regex :=
  [ Js.liti "edit";
    Js.liti "[edit]";
    Js.liti "content" ++ [Js.Opt (Js.ChrI "s")];
    Js.liti "table of contents";
    Js.liti "navigation";
    Js.liti "menu";
    Js.liti "search";
    Js.liti "language" ++ [Js.Opt (Js.ChrI "s")];
    [Js.Plus Js.Dig; Js.Star Js.Spc] ++ Js.liti "language" ++ [Js.Opt (Js.ChrI "s")] ].

Definition isNoiseHeading (text : string) : bool :=
  Js.test_whole_any noiseHeadingPatterns (Js.trim text).

Definition re_mw_heading : Js.regex := Js.lit "mw-heading".

Definition re_wrappers : list Js.regex :=
  map Js.lit ["heading-wrapper"; "section-heading"; "title-wrapper"].

(** [/^h[1-6]$/] *)
Definition re_heading_tag : Js.regex := [Js.One (Js.Chr "h"); Js.One (Js.Rng "1" "6")].

Definition heading_tags : list selector := tags ["h1"; "h2"; "h3"; "h4"].
Definition all_heading_tags : list selector :=
  tags ["h1"; "h2"; "h3"; "h4"; "h5"; "h6"].

(** The element the walk over the siblings starts from: the heading, or
    its parent when the parent is a wrapper of the heading. *)
Definition traverse_from (heading : loc) : loc :=
  match up heading with
  | Some parent =>
      let parentClass := attr_or_empty "class" (hd_of parent) in
      let from := if Js.test re_mw_heading parentClass then parent else heading in
      if Js.test_any re_wrappers parentClass then parent else from
  | None => heading
  end.

(** The state of the walk: the content so far and the texts seen. *)
Definition walk_state : Type := list string * gset string.

(** The loop over the fragments of one element. *)
Definition add_fragment (st : walk_state) (text : string) : walk_state :=
  let '(content, seenTexts) := st in
  let normalizedText := Js.trim text in
  if Js.truthy normalizedText && negb (bool_decide (normalizedText ∈ seenTexts))
  then (content ++ [normalizedText], {[normalizedText]} ∪ seenTexts)
  else st.

Definition add_fragments (st : walk_state) (texts : list string) : walk_state :=
  fold_left add_fragment texts st.

(** The first test of the loop: a heading of the same or a higher level. *)
Definition stops_as_heading (level : num) (current : loc) : bool :=
  let currentTag := tagName (hd_of current) in
  Js.test_whole re_heading_tag currentTag
  && num_le (level_of_tag currentTag) level.

(** The second test: a wrapper whose first heading is of the same or a
    higher level. *)
Definition stops_as_wrapper (level : num) (current : loc) : bool :=
  let currentClass := attr_or_empty "class" (hd_of current) in
  Js.test re_mw_heading currentClass
  && match find1 all_heading_tags current with
     | nestedHeading :: _ =>
         num_le (level_of_tag (tagName (hd_of nestedHeading))) level
     | [] => false
     end.

Definition is_wrapper (current : loc) : bool :=
  Js.test re_mw_heading (attr_or_empty "class" (hd_of current)).

(** The [while] loop of [collectContentAfterHeading], over the siblings
    still to visit. *)
Fixpoint walk (level : num) (siblings : list loc) (st : walk_state) : walk_state :=
  match siblings with
  | [] => st
  | current :: rest =>
      if stops_as_heading level current then st
      else if stops_as_wrapper level current then st
      else if is_wrapper current then walk level rest st
      else walk level rest (add_fragments st (extractElementContent current))
  end.

Definition collectContentAfterHeading (heading : loc) (level : num) : list string :=
  fst (walk level (following (traverse_from heading)) ([], ∅)).

Record heading_info : Type := HeadingInfo {
  hi_element : loc;
  hi_level : num;
  hi_text : string
}.

(** The first loop of [extractHeadingsWithContent]. *)
Definition headingElements (container : list loc) : list heading_info :=
  flat_map
    (fun element =>
       let tagName := tagName (hd_of element) in
       let level := level_of_tag tagName in
       let text := cleanText (text_of element) in
       if Js.truthy text && (0 <? String.length text) && negb (isNoiseHeading text)
       then [HeadingInfo element level text] else [])
    (find heading_tags container).

Definition extractHeadingsWithContent (container : list loc) : list HeadingWithContent :=
  map
    (fun headingInfo =>
       Heading (hi_level headingInfo) (hi_text headingInfo)
         (collectContentAfterHeading (hi_element headingInfo) (hi_level headingInfo)))
    (headingElements container).

(** ** Fallback extraction *)

Definition navPatterns : list Js.regex :=
  map Js.liti ["home"; "about"; "contact"; "login"; "sign up"; "sign in";
               "register"; "search"]
  ++ map Js.liti ["prev"; "next"; "previous"; "back"; "forward"]
  ++ [[Js.Plus Js.Dig]]
  ++ map Js.liti ["more"; "less"; "show"; "hide"].

Definition isNavigationText (text : string) : bool :=
  Js.test_whole_any navPatterns (Js.trim text).

Definition articleSelectors : list selector :=
  [tg "article"; cl "article"; cl "post"; cl "entry"; cl "story"; cl "item"].

(** [[...new Set(xs)]]: the first occurrence of every string. *)
Definition unique_strings (xs : list string) : list string :=
  uniq_go String.eqb [] xs.

Definition article_texts (articles : list loc) : list string :=
  flat_map
    (fun article =>
       let text := cleanText (text_of article) in
       if Js.truthy text && (50 <? String.length text) then
         [Js.take 500 text +:+ (if 500 <? String.length text then "..." else "")]
       else [])
    articles.

Fixpoint article_strategy (sels : list selector) (container : list loc)
    : option FallbackContent :=
  match sels with
  | [] => None
  | s :: rest =>
      let articles := find [s] container in
      let texts := article_texts articles in
      if (0 <? length articles) && (0 <? length texts) then
        Some (Fallback "article-containers" (Js.join (nl +:+ nl) (firstn 10 texts)))
      else article_strategy rest container
  end.

Definition paragraph_texts (container : list loc) : list string :=
  flat_map
    (fun p =>
       let text := cleanText (text_of p) in
       if Js.truthy text && (30 <? String.length text) then [text] else [])
    (find [tg "p"] container).

Definition text_blocks (container : list loc) : list string :=
  flat_map
    (fun e =>
       let text := cleanText (text_of e) in
       if Js.truthy text && (20 <? String.length text)
          && (String.length text <? 500) && negb (isNavigationText text)
       then [text] else [])
    (find (tags ["td"; "span"; "a"]) container).

Definition extractFallbackContent (container : list loc) : option FallbackContent :=
  match article_strategy articleSelectors container with
  | Some f => Some f
  | None =>
      let paragraphs := paragraph_texts container in
      if 0 <? length paragraphs then
        Some (Fallback "paragraphs" (Js.join (nl +:+ nl) (firstn 20 paragraphs)))
      else
        let textBlocks := text_blocks container in
        if 0 <? length textBlocks then
          Some (Fallback "text-blocks" (Js.join nl (firstn 30 (unique_strings textBlocks))))
        else None
  end.

(** ** The extraction *)

Section Extraction.

Variable innerHTML : node -> string.

(** [extractSEOContent] after the page is fetched and parsed: [doc] is
    the parsed page and [now] the time of the call. *)
Definition extractSEOContent (url now : string) (doc : list node) : ExtractedContent :=
  let metaTitle := extractMetaTitle doc in
  let metaDescription := extractMetaDescription doc in
  let doc := removeNoiseElements doc in
  let contentContainer := findContentContainer innerHTML doc in
  let headings := extractHeadingsWithContent contentContainer in
  let fallbackContent :=
    if length headings =? 0 then extractFallbackContent contentContainer else None in
  Extracted url metaTitle metaDescription headings fallbackContent now.

End Extraction.

(** ** Notions used in the statements *)

(** A regular expression without [$]. *)
Definition open_ended (p : Js.regex) : Prop := ~ In Js.End p.

(** No match of [p] starts anywhere in [s]. *)
Fixpoint quiet (p : Js.regex) (s : string) : Prop :=
  match s with
  | EmptyString => True
  | String _ r => Js.rmatch p s = None /\ quiet p r
  end.

(** [replace(/\s+/g, ' ')] as one pass: [in_run] tells that the
    character before was white space. *)
Fixpoint collapse (in_run : bool) (s : string) : string :=
  match s with
  | EmptyString => EmptyString
  | String c r =>
      if Js.is_space c then
        if in_run then collapse true r else String " " (collapse true r)
      else String c (collapse false r)
  end.

(** The white space of [s] is single spaces; [prev] tells that the
    character before was white space. *)
Fixpoint tidy_from (prev : bool) (s : string) : bool :=
  match s with
  | EmptyString => true
  | String c r =>
      if Js.is_space c then Js.eqc c " " && negb prev && tidy_from true r
      else tidy_from false r
  end.

(** The number of white-space characters at the start of [s]. *)
Fixpoint lead (s : string) : nat :=
  match s with
  | EmptyString => 0
  | String c r => if Js.is_space c then S (lead r) else 0
  end.

(** [s] is empty or starts with a character that is not white space. *)
Definition starts_clean (s : string) : bool :=
  match s with
  | EmptyString => true
  | String c _ => negb (Js.is_space c)
  end.

(** Removal by one rule or by another. *)
Definition either (rm1 rm2 : option head -> head -> bool) : option head -> head -> bool :=
  fun ph h => rm1 ph h || rm2 ph h.

(** Removal by one of a list of selectors. *)
Definition any_of (ss : list selector) : option head -> head -> bool :=
  fun ph h => existsb (fun s => sel_matches s ph h) ss.

(** All that one pass of the noise filter removes. *)
Definition noise_rule : option head -> head -> bool :=
  fun ph h =>
    any_of NOISE_SELECTORS ph h || noisy_class h || any_of hidden_selectors ph h.

(** The noise substrings as the specification lists them. *)
Definition spec_noise_substrings : list string :=
  [ "footer"; "nav"; "menu"; "sidebar"; "widget"; "advertisement"; "social";
    "share"; "comment"; "related"; "promo"; "newsletter"; "subscribe";
    "cookie"; "consent" ].


(** The rows of a table that have a cell with text, as lists of cells. *)
Definition table_rows (table : loc) : list (list string) :=
  filter (fun cells => cells <> []) (map row_cells (find1 [tg "tr"] table)).

(** The walk stops at an element. *)
Definition stops (level : num) (current : loc) : bool :=
  stops_as_heading level current || stops_as_wrapper level current.

(** The siblings whose content the walk takes: those before the first
    one it stops at, the wrappers among them left out. *)
Fixpoint visited (level : num) (siblings : list loc) : list loc :=
  match siblings with
  | [] => []
  | current :: rest =>
      if stops level current then []
      else (if is_wrapper current then [] else [current]) ++ visited level rest
  end.

(** The first occurrence of every string, in the order of [xs]. *)
Fixpoint keep_first (xs : list string) : list string :=
  match xs with
  | [] => []
  | x :: rest => x :: filter (fun y => y <> x) (keep_first rest)
  end.

(** An element contains a heading of the level or of a higher one,
    whichever heading below it that is. *)
Definition contains_heading_upto (level : num) (current : loc) : bool :=
  existsb (fun n => num_le (level_of_tag (tagName (hd_of n))) level)
    (find1 all_heading_tags current).

(** The texts seen are the texts of the content. *)
Definition seen_is_content (st : walk_state) : Prop :=
  forall x, x ∈ snd st <-> x ∈ fst st.

(** The tags of the elements that are scored. *)
Definition scored_tags : list string := ["div"; "section"; "article"; "main"].

(** ** Sample documents *)

Definition shared_box : node :=
  Elem (Head "div" [("class", "Shared-Content box")]) [Dom.Text "kept"].

Definition widget_by_id : node :=
  Elem (Head "div" [("id", "widget-area")]) [Dom.Text "latest posts"].


Definition two_row_table : node :=
  Elem (Head "table" [])
    [ Elem (Head "tr" [])
        [Elem (Head "td" []) [Dom.Text "a"]; Elem (Head "td" []) [Dom.Text " "];
         Elem (Head "td" []) [Dom.Text "b"]];
      Elem (Head "tr" []) [Elem (Head "td" []) []];
      Elem (Head "tr" []) [Elem (Head "th" []) [Dom.Text "c"]] ].

(** A section whose second sibling is a wrapper with two headings: an
    h3 first, an h2 after it. *)
Definition after_wrapper : node :=
  Elem (Head "p" []) [Dom.Text "after the wrapper"].

Definition double_wrapper : node :=
  Elem (Head "div" [("class", "mw-heading mw-heading3")])
    [Elem (Head "h3" []) [Dom.Text "Details"];
     Elem (Head "h2" []) [Dom.Text "Next part"]].

Definition intro_heading : loc :=
  Loc (Elem (Head "h2" []) [Dom.Text "Intro"]) [double_wrapper; after_wrapper] None.

(** A section with a sub-heading wrapper among its paragraphs and the
    wrapper of the next heading after them. *)
Definition para (s : string) : node := Elem (Head "p" []) [Dom.Text s].

Definition sub_wrapper : node :=
  Elem (Head "div" [("class", "mw-heading")]) [Elem (Head "h3" []) [Dom.Text "Sub"]].

Definition next_wrapper : node :=
  Elem (Head "div" [("class", "mw-heading")]) [Elem (Head "h2" []) [Dom.Text "Next"]].

Definition section_tail : list node :=
  [para "one"; sub_wrapper; para "two"; next_wrapper; para "three"].

Definition section_heading : loc :=
  Loc (Elem (Head "h2" []) [Dom.Text "Title"]) section_tail None.

(** A page with a heading and a paragraph, a page with a paragraph
    only, and a page without text. *)
Definition page (body : list node) : list node :=
  [Elem (Head "html" [])
     [Elem (Head "head" []) [Elem (Head "title" []) [Dom.Text "Example Domain"]];
      Elem (Head "body" []) body]].

Definition example_page : list node :=
  page [Elem (Head "div" [])
          [Elem (Head "h1" []) [Dom.Text "Example Domain"];
           para "This domain is for use in illustrative examples..."]].

Definition plain_page : list node :=
  page [para "A paragraph of more than thirty characters, without any heading."].

Definition blank_page : list node := page [].

(** A serializer for the samples: the text stands for the markup. *)
Definition text_as_html (n : node) : string := Dom.text n.

(** A page whose only block is long enough for the scoring. *)
Definition long_page : list node :=
  page [Elem (Head "div" [("id", "story")])
          [Dom.Text (Js.repeat "words and more words " 12)]].

Definition example_heading : HeadingWithContent :=
  Heading (Some 1) "Example Domain"
    ["This domain is for use in illustrative examples..."].

Definition nested_list : node :=
  Elem (Head "ul" [])
    [Elem (Head "li" [])
       [Dom.Text "A"; Elem (Head "ul" []) [Elem (Head "li" []) [Dom.Text "B"]]]].

(** A section that repeats a paragraph and a definition. *)
Definition repeating_heading : loc :=
  Loc (Elem (Head "h2" []) [Dom.Text "Title"])
    [ para "same"; para " other "; para "same";
      Elem (Head "dl" []) [Elem (Head "dd" []) [Dom.Text "other"]];
      para "last" ]
    None.

(** A page with a navigation bar, a hidden block and an article. *)
Definition noisy_page : list node :=
  page [ Elem (Head "nav" []) [para "Home"];
         Elem (Head "div" [("class", "Top-Menu")]) [para "Menu"];
         Elem (Head "div" [("style", "display:none")]) [para "Hidden"];
         Elem (Head "article" [("class", "main-content sidebar-layout")])
           [para "Kept"; Elem (Head "span" [("aria-hidden", "true")]) []] ].

(** ** Notions used in the further properties *)

(** Every character of [s] is white space. *)
Fixpoint all_space (s : string) : bool :=
  match s with
  | EmptyString => true
  | String c r => Js.is_space c && all_space r
  end.

(** The white-space characters of [s] are plain spaces. *)
Fixpoint plain_spaces (s : string) : Prop :=
  match s with
  | EmptyString => True
  | String c r => (Js.is_space c = true -> c = " "%char) /\ plain_spaces r
  end.

(** The last character of [s], if any, is not white space. *)
Fixpoint ends_clean (s : string) : bool :=
  match s with
  | EmptyString => true
  | String c EmptyString => negb (Js.is_space c)
  | String _ r => ends_clean r
  end.

(** An atom that reads a letter in either case alike. *)
Definition caseless_atom (a : Js.atom) : Prop :=
  match a with
  | Js.ChrI x => Js.lower x = x
  | Js.Dig | Js.Spc => True
  | _ => False
  end.

Definition caseless_item (i : Js.item) : Prop :=
  match i with
  | Js.One a | Js.Opt a | Js.Star a | Js.Plus a => caseless_atom a
  | Js.End => True
  end.

Definition caseless (p : Js.regex) : Prop := Forall caseless_item p.

(** ** Further samples *)

Definition plain_container : list loc := select [tg "body"] plain_page.

Definition article_words : string :=
  "An article text of more than fifty characters, in one block.".

Definition article_container : list loc :=
  select [tg "body"]
    (page [Elem (Head "article" []) [Dom.Text ("  " +:+ article_words +:+ nl)]]).

Definition menu_page : list node :=
  page [Elem (Head "div" [])
          [ Elem (Head "h2" []) [Dom.Text " 12 Languages "];
            Elem (Head "h2" []) [Dom.Text "History[edit]"];
            para "Text of the section." ]].

Definition described_page : list node :=
  [Elem (Head "html" [])
     [Elem (Head "head" [])
        [Elem (Head "title" []) [Dom.Text "   "];
         Elem (Head "meta" [("property", "og:title"); ("content", " Shared title ")]) [];
         Elem (Head "meta" [("name", "description"); ("content", "")]) [];
         Elem (Head "meta" [("name", "twitter:description"); ("content", "About  it ")]) []];
      Elem (Head "body" []) []]].

Definition mixed_nodes : list node :=
  [ para "Kept"; Elem (Head "nav" []) [para "Home"];
    Elem (Head "div" [("hidden", "")]) [para "Unseen"] ].

(** A node is an [li] element. *)
Definition is_item (k : node) : bool :=
  match k with
  | Elem hk _ => String.eqb (tag hk) "li"
  | _ => false
  end.

Definition main_page : list node :=
  page [Elem (Head "main" [])
          [para "short"; Elem (Head "article" []) [Dom.Text (Js.repeat "article text " 10)]]].

Definition empty_list : node :=
  Elem (Head "ol" []) [Dom.Text " "; Elem (Head "p" []) [Dom.Text "stray"]].

(** A section whose next heading is wrapped by an element of class
    heading-wrapper. *)
Definition wrapped_next : node :=
  Elem (Head "div" [("class", "heading-wrapper")])
    [Elem (Head "h2" []) [Dom.Text "B"]].

Definition first_heading : loc :=
  Loc (Elem (Head "h2" []) [Dom.Text "A"])
    [para "one"; wrapped_next; para "two"] None.

Definition wrapped_next_loc : loc := Loc wrapped_next [para "two"] None.

Definition next_heading : loc :=
  Loc (Elem (Head "h2" []) [Dom.Text "B"]) [] (Some wrapped_next_loc).

(** * Properties *)

(** ** Strings and regular expressions *)

Section StringFacts.

Lemma app_nil_l (s : string) : EmptyString +:+ s = s.
Proof. reflexivity. Qed.

Lemma app_cons (c : ascii) (r s : string) :
  String c r +:+ s = String c (r +:+ s).
Proof. reflexivity. Qed.

Lemma app_nil_r (s : string) : s +:+ EmptyString = s.
Proof. induction s as [|c r IH]; [reflexivity|]. rewrite app_cons, IH. reflexivity. Qed.

Lemma length_app (s t : string) :
  String.length (s +:+ t) = String.length s + String.length t.
Proof. induction s as [|c r IH]; [reflexivity|]. rewrite app_cons. simpl. lia. Qed.

Lemma truthy_nonempty (s : string) : Js.truthy s = true <-> s <> EmptyString.
Proof. destruct s; cbn; split; intros H; done. Qed.

(** *** The matcher never looks past the end of its match *)

Lemma star_extends (a : Js.atom) (k : string -> option nat) :
  (forall u v, k u <> None -> k (u +:+ v) <> None) ->
  forall u v, Js.star a k u <> None -> Js.star a k (u +:+ v) <> None.
Proof.
  intros Hk.
  assert (Hlift : forall w, k w <> None -> Js.star a k w <> None).
  { intros [|c r] Hw; simpl; [exact Hw|].
    destruct (Js.amatch a c); [|exact Hw].
    destruct (Js.star a k r); [discriminate|exact Hw]. }
  induction u as [|c r IH]; intros v H.
  - simpl in H. rewrite app_nil_l. apply Hlift.
    specialize (Hk EmptyString v H). exact Hk.
  - rewrite app_cons. simpl in *.
    destruct (Js.amatch a c).
    + destruct (Js.star a k r) eqn:E.
      * assert (Js.star a k (r +:+ v) <> None) as H1 by (apply IH; congruence).
        destruct (Js.star a k (r +:+ v)); [discriminate|congruence].
      * specialize (Hk (String c r) v H). rewrite app_cons in Hk.
        destruct (Js.star a k (r +:+ v)); [discriminate|exact Hk].
    + specialize (Hk (String c r) v H). rewrite app_cons in Hk. exact Hk.
Qed.

Lemma rmatch_extends (p : Js.regex) :
  open_ended p ->
  forall u v, Js.rmatch p u <> None -> Js.rmatch p (u +:+ v) <> None.
Proof.
  unfold open_ended.
  induction p as [|i p IH]; intros Hp u v H; [simpl; discriminate|].
  assert (Hp' : ~ In Js.End p) by (intros X; apply Hp; right; exact X).
  specialize (IH Hp').
  destruct i as [a|a|a|a|].
  - destruct u as [|c r]; [simpl in *; congruence|]. rewrite app_cons.
    simpl in *.
    destruct (Js.amatch a c); [|congruence].
    destruct (Js.rmatch p r) eqn:E; [|simpl in H; congruence].
    assert (Js.rmatch p (r +:+ v) <> None) by (apply IH; congruence).
    destruct (Js.rmatch p (r +:+ v)); simpl; congruence.
  - destruct u as [|c r].
    + rewrite app_nil_l. simpl in H.
      assert (Hv : Js.rmatch p v <> None) by (apply (IH EmptyString v H)).
      destruct v as [|d w]; simpl; [exact Hv|].
      destruct (Js.amatch a d); [|exact Hv].
      destruct (Js.rmatch p w); [discriminate|exact Hv].
    + rewrite app_cons. simpl in *.
      destruct (Js.amatch a c).
      * destruct (Js.rmatch p r) eqn:E.
        -- assert (Js.rmatch p (r +:+ v) <> None) by (apply IH; congruence).
           destruct (Js.rmatch p (r +:+ v)); congruence.
        -- specialize (IH (String c r) v H). rewrite app_cons in IH.
           destruct (Js.rmatch p (r +:+ v)); [discriminate|exact IH].
      * specialize (IH (String c r) v H). rewrite app_cons in IH. exact IH.
  - simpl in *. apply star_extends; assumption.
  - destruct u as [|c r]; [simpl in *; congruence|]. rewrite app_cons.
    simpl in *.
    destruct (Js.amatch a c); [|congruence].
    destruct (Js.star a (Js.rmatch p) r) eqn:E; [|simpl in H; congruence].
    assert (Js.star a (Js.rmatch p) (r +:+ v) <> None)
      by (apply star_extends; [exact IH|congruence]).
    destruct (Js.star a (Js.rmatch p) (r +:+ v)); simpl; congruence.
  - exfalso. apply Hp. left. reflexivity.
Qed.

(** *** Removing matches *)

Lemma replace_go_length (p : Js.regex) (s : string) :
  forall k, String.length (Js.replace_go p "" k s) <= String.length s.
Proof.
  induction s as [|c r IH]; intros k; simpl; [lia|].
  destruct k as [|k]; [|specialize (IH k); lia].
  destruct (Js.rmatch p (String c r)) as [[|j]|].
  - simpl. specialize (IH 0). lia.
  - rewrite app_nil_l. specialize (IH j). lia.
  - simpl. specialize (IH 0). lia.
Qed.

Lemma one_positive (a : Js.atom) (p : Js.regex) (s : string) :
  Js.rmatch (Js.One a :: p) s <> Some 0.
Proof.
  destruct s as [|c r]; simpl; [discriminate|].
  destruct (Js.amatch a c); [|discriminate].
  destruct (Js.rmatch p r); simpl; discriminate.
Qed.

Section Removal.

Variable p : Js.regex.
Hypothesis positive : forall s, Js.rmatch p s <> Some 0.

Lemma removes_same_length (s : string) :
  String.length (Js.replace_all p "" s) = String.length s ->
  Js.replace_all p "" s = s.
Proof.
  unfold Js.replace_all.
  induction s as [|c r IH]; [reflexivity|]. simpl.
  destruct (Js.rmatch p (String c r)) as [[|j]|] eqn:E.
  - exfalso. exact (positive _ E).
  - rewrite app_nil_l. intros H. pose proof (replace_go_length p r j). lia.
  - simpl. intros H. f_equal. apply IH. lia.
Qed.

Lemma removes_fix_quiet (s : string) :
  Js.replace_all p "" s = s -> quiet p s.
Proof.
  unfold Js.replace_all.
  induction s as [|c r IH]; [simpl; trivial|]. simpl.
  destruct (Js.rmatch p (String c r)) as [[|j]|] eqn:E.
  - exfalso. exact (positive _ E).
  - rewrite app_nil_l. intros H. pose proof (replace_go_length p r j) as L.
    rewrite H in L. simpl in L. lia.
  - intros H. injection H as H. split; [reflexivity|]. apply IH. exact H.
Qed.

End Removal.

Lemma quiet_fix (p : Js.regex) (s : string) :
  quiet p s -> Js.replace_all p "" s = s.
Proof.
  unfold Js.replace_all.
  induction s as [|c r IH]; [reflexivity|]. intros [H1 H2].
  change (Js.replace_go p "" 0 (String c r))
    with (match Js.rmatch p (String c r) with
          | Some (S k) => "" +:+ Js.replace_go p "" k r
          | _ => String c (Js.replace_go p "" 0 r)
          end).
  rewrite H1. f_equal. apply IH. exact H2.
Qed.

Lemma quiet_trimStart (p : Js.regex) (s : string) :
  quiet p s -> quiet p (Js.trimStart s).
Proof.
  induction s as [|c r IH]; [trivial|]. intros H.
  change (Js.trimStart (String c r))
    with (if Js.is_space c then Js.trimStart r else String c r).
  destruct (Js.is_space c); [apply IH; apply H|exact H].
Qed.

Lemma quiet_prefix (p : Js.regex) (u w : string) :
  open_ended p -> quiet p (u +:+ w) -> quiet p u.
Proof.
  intros Hp. induction u as [|c r IH]; [simpl; trivial|].
  rewrite app_cons. intros [H1 H2]. split.
  - destruct (Js.rmatch p (String c r)) eqn:E; [|reflexivity].
    exfalso. apply (rmatch_extends p Hp (String c r) w); [congruence|].
    rewrite app_cons. exact H1.
  - apply IH. exact H2.
Qed.

Lemma trimEnd_split (s : string) : exists w, s = Js.trimEnd s +:+ w.
Proof.
  induction s as [|c r [w IH]]; [exists EmptyString; reflexivity|].
  simpl. destruct (Js.is_space c && Js.is_empty (Js.trimEnd r)).
  - exists (String c r). reflexivity.
  - exists w. rewrite app_cons. f_equal. exact IH.
Qed.

Lemma quiet_trim (p : Js.regex) (s : string) :
  open_ended p -> quiet p s -> quiet p (Js.trim s).
Proof.
  intros Hp H. unfold Js.trim.
  destruct (trimEnd_split (Js.trimStart s)) as [w Hw].
  apply (quiet_prefix p _ w Hp). rewrite <- Hw.
  apply quiet_trimStart. exact H.
Qed.

End StringFacts.

(** ** Text cleaning *)

Section CleanFacts.

Lemma replace_go_0 (p : Js.regex) (rep : string) (c : ascii) (r : string) :
  Js.replace_go p rep 0 (String c r)
  = match Js.rmatch p (String c r) with
    | Some (S k) => rep +:+ Js.replace_go p rep k r
    | _ => String c (Js.replace_go p rep 0 r)
    end.
Proof. reflexivity. Qed.

Lemma replace_go_S (p : Js.regex) (rep : string) (k : nat) (c : ascii) (r : string) :
  Js.replace_go p rep (S k) (String c r) = Js.replace_go p rep k r.
Proof. reflexivity. Qed.

Lemma star_space_lead (s : string) :
  Js.star Js.Spc (fun _ => Some 0) s = Some (lead s).
Proof.
  induction s as [|c r IH]; [reflexivity|]. simpl.
  destruct (Js.is_space c); [rewrite IH|]; reflexivity.
Qed.

Lemma rmatch_spaces (c : ascii) (r : string) :
  Js.rmatch [Js.Plus Js.Spc] (String c r)
  = if Js.is_space c then Some (S (lead r)) else None.
Proof.
  change (Js.rmatch [Js.Plus Js.Spc] (String c r))
    with (if Js.is_space c then S <$> Js.star Js.Spc (fun _ => Some 0) r else None).
  destruct (Js.is_space c); [rewrite star_space_lead|]; reflexivity.
Qed.

Lemma normalize_collapse (s : string) :
  Js.replace_go [Js.Plus Js.Spc] " " 0 s = collapse false s
  /\ Js.replace_go [Js.Plus Js.Spc] " " (lead s) s = collapse true s.
Proof.
  induction s as [|c r [IH1 IH2]]; [split; reflexivity|].
  split.
  - rewrite replace_go_0, rmatch_spaces. simpl.
    destruct (Js.is_space c).
    + rewrite IH2. reflexivity.
    + rewrite IH1. reflexivity.
  - simpl lead. simpl collapse. destruct (Js.is_space c) eqn:E.
    + rewrite replace_go_S. exact IH2.
    + rewrite replace_go_0, rmatch_spaces, E, IH1. reflexivity.
Qed.

Lemma normalize_ws_collapse (s : string) : normalize_ws s = collapse false s.
Proof. apply normalize_collapse. Qed.

Lemma collapse_tidy (s : string) : forall b, tidy_from b (collapse b s) = true.
Proof.
  induction s as [|c r IH]; intros b; [reflexivity|]. simpl.
  destruct (Js.is_space c) eqn:E.
  - destruct b; [apply IH|]. simpl. rewrite IH. reflexivity.
  - simpl. rewrite E. apply IH.
Qed.

Lemma tidy_collapse (s : string) :
  forall b, tidy_from b s = true -> collapse b s = s.
Proof.
  induction s as [|c r IH]; intros b H; [reflexivity|]. simpl in *.
  destruct (Js.is_space c).
  - apply andb_prop in H as [H H3]. apply andb_prop in H as [H1 H2].
    apply Ascii.eqb_eq in H1. destruct b; [discriminate|].
    rewrite (IH true H3). subst c. reflexivity.
  - rewrite (IH false H). reflexivity.
Qed.

Lemma tidy_weaken (s : string) (b : bool) :
  tidy_from b s = true -> tidy_from false s = true.
Proof.
  destruct s as [|c r]; [trivial|]. simpl.
  destruct (Js.is_space c); [|trivial].
  intros H. apply andb_prop in H as [H H3]. apply andb_prop in H as [H1 H2].
  rewrite H1, H3. reflexivity.
Qed.

Lemma tidy_trimStart (s : string) (b : bool) :
  tidy_from b s = true -> tidy_from false (Js.trimStart s) = true.
Proof.
  revert b. induction s as [|c r IH]; intros b H; [reflexivity|].
  simpl in *. destruct (Js.is_space c) eqn:E.
  - apply andb_prop in H as [_ H3]. apply (IH true H3).
  - simpl. rewrite E. exact H.
Qed.

Lemma tidy_trimEnd (s : string) :
  forall b, tidy_from b s = true -> tidy_from b (Js.trimEnd s) = true.
Proof.
  induction s as [|c r IH]; intros b H; [reflexivity|]. simpl in *.
  destruct (Js.is_space c) eqn:E; simpl.
  - destruct (Js.is_empty (Js.trimEnd r)); [reflexivity|]. simpl. rewrite E.
    apply andb_prop in H as [H H3]. rewrite H, (IH true H3). reflexivity.
  - rewrite E. apply IH. exact H.
Qed.

Lemma normalize_ws_fix (s : string) :
  tidy_from false s = true -> normalize_ws s = s.
Proof. intros H. rewrite normalize_ws_collapse. apply tidy_collapse. exact H. Qed.

Lemma trimStart_starts_clean (s : string) : starts_clean (Js.trimStart s) = true.
Proof.
  induction s as [|c r IH]; [reflexivity|]. simpl.
  destruct (Js.is_space c) eqn:E; [exact IH|]. simpl. rewrite E. reflexivity.
Qed.

Lemma trimEnd_starts_clean (s : string) :
  starts_clean s = true -> starts_clean (Js.trimEnd s) = true.
Proof.
  destruct s as [|c r]; [trivial|]. simpl. intros H.
  destruct (Js.is_space c) eqn:E; [discriminate|]. simpl. rewrite E. reflexivity.
Qed.

Lemma trimStart_fix (s : string) : starts_clean s = true -> Js.trimStart s = s.
Proof.
  destruct s as [|c r]; [trivial|]. simpl.
  destruct (Js.is_space c); [discriminate|trivial].
Qed.

Lemma trimEnd_idem (s : string) : Js.trimEnd (Js.trimEnd s) = Js.trimEnd s.
Proof.
  induction s as [|c r IH]; [reflexivity|]. simpl.
  destruct (Js.is_space c && Js.is_empty (Js.trimEnd r)) eqn:E; [reflexivity|].
  simpl. rewrite IH, E. reflexivity.
Qed.

Lemma trim_idem (s : string) : Js.trim (Js.trim s) = Js.trim s.
Proof.
  unfold Js.trim.
  rewrite (trimStart_fix (Js.trimEnd (Js.trimStart s))).
  - apply trimEnd_idem.
  - apply trimEnd_starts_clean, trimStart_starts_clean.
Qed.

Lemma markers_open_ended :
  open_ended re_edit /\ open_ended re_citation
  /\ open_ended re_note /\ open_ended re_ref.
Proof.
  unfold open_ended. repeat split; intros H; vm_compute in H;
    repeat (destruct H as [H|H]; [discriminate H|]); exact H.
Qed.

Lemma markers_positive :
  (forall s, Js.rmatch re_edit s <> Some 0)
  /\ (forall s, Js.rmatch re_citation s <> Some 0)
  /\ (forall s, Js.rmatch re_note s <> Some 0)
  /\ (forall s, Js.rmatch re_ref s <> Some 0).
Proof. repeat split; intros s; apply one_positive. Qed.

(** Nothing is stripped exactly when no marker occurs. *)
Lemma strip_fix_quiet (s : string) :
  strip_markers s = s ->
  quiet re_edit s /\ quiet re_citation s /\ quiet re_note s /\ quiet re_ref s.
Proof.
  destruct markers_positive as (P1 & P2 & P3 & P4).
  unfold strip_markers. intros H.
  pose proof (replace_go_length re_edit s 0) as L1.
  pose proof (replace_go_length re_citation (Js.replace_all re_edit "" s) 0) as L2.
  pose proof (replace_go_length re_note
                (Js.replace_all re_citation "" (Js.replace_all re_edit "" s)) 0) as L3.
  pose proof (replace_go_length re_ref
                (Js.replace_all re_note ""
                   (Js.replace_all re_citation "" (Js.replace_all re_edit "" s))) 0) as L4.
  fold (Js.replace_all re_edit "" s) in L1.
  fold (Js.replace_all re_citation "" (Js.replace_all re_edit "" s)) in L2.
  fold (Js.replace_all re_note ""
          (Js.replace_all re_citation "" (Js.replace_all re_edit "" s))) in L3.
  fold (Js.replace_all re_ref ""
          (Js.replace_all re_note ""
             (Js.replace_all re_citation "" (Js.replace_all re_edit "" s)))) in L4.
  rewrite H in L4.
  assert (E1 : Js.replace_all re_edit "" s = s)
    by (apply (removes_same_length _ P1); lia).
  rewrite E1 in *.
  assert (E2 : Js.replace_all re_citation "" s = s)
    by (apply (removes_same_length _ P2); lia).
  rewrite E2 in *.
  assert (E3 : Js.replace_all re_note "" s = s)
    by (apply (removes_same_length _ P3); lia).
  rewrite E3 in *.
  repeat split; apply removes_fix_quiet; assumption.
Qed.

Lemma quiet_strip_fix (s : string) :
  quiet re_edit s -> quiet re_citation s -> quiet re_note s -> quiet re_ref s ->
  strip_markers s = s.
Proof.
  intros H1 H2 H3 H4. unfold strip_markers.
  rewrite (quiet_fix _ _ H1), (quiet_fix _ _ H2), (quiet_fix _ _ H3).
  apply quiet_fix. exact H4.
Qed.

(** C2, as the claim has it, fails: after "[1]" is removed from between
    two spaces both spaces stay, and a second cleaning merges them. *)
Lemma cleanText_not_idempotent :
  cleanText (cleanText "a [1] b") <> cleanText "a [1] b".
Proof. vm_compute. discriminate. Qed.

End CleanFacts.

(** ** The tree *)

Section TreeFacts.

(** Induction on a node with the property known of its children. *)
Lemma node_induction (P : node -> Prop) :
  (forall d, P (Text d)) ->
  (forall d, P (Comment d)) ->
  (forall h ks, Forall P ks -> P (Elem h ks)) ->
  forall n, P n.
Proof.
  intros Ht Hc He. fix IH 1. intros [d|d|h ks].
  - apply Ht.
  - apply Hc.
  - apply He. induction ks as [|k r IHr]; constructor; [apply IH|exact IHr].
Qed.

(** Induction on a place with the property known of the place above. *)
Lemma loc_induction (P : loc -> Prop) :
  (forall n af u, (forall p, u = Some p -> P p) -> P (Loc n af u)) ->
  forall l, P l.
Proof.
  intros H. fix IH 1. intros [n af [p|]].
  - apply H. intros q E. injection E as <-. apply IH.
  - apply H. intros q E. discriminate E.
Qed.

Lemma subtree_elem (up : option loc) (after : list node) (h : head) (ks : list node) :
  subtree up after (Elem h ks)
  = Loc (Elem h ks) after up :: forest (Some (Loc (Elem h ks) after up)) ks.
Proof.
  simpl. f_equal. generalize (Loc (Elem h ks) after up). intros self.
  induction ks as [|k r IH]; [reflexivity|].
  simpl. rewrite IH. reflexivity.
Qed.

Lemma prune_elem (rm : option head -> head -> bool) (h : head) (ks : list node) :
  prune rm (Elem h ks) = Elem h (prune_forest rm (Some h) ks).
Proof.
  simpl. f_equal. induction ks as [|k r IH]; [reflexivity|].
  simpl. rewrite IH. reflexivity.
Qed.

Lemma prune_is_elem (rm : option head -> head -> bool) (n : node) :
  is_elem (prune rm n) = is_elem n.
Proof. destruct n; reflexivity. Qed.

Lemma prune_head (rm : option head -> head -> bool) (n : node) :
  head_of (prune rm n) = head_of n.
Proof. destruct n; reflexivity. Qed.

Lemma prune_forest_ext_of (rm rm' : option head -> head -> bool) (ph : option head)
    (ks : list node) :
  (forall q h, rm q h = rm' q h) ->
  Forall (fun k => prune rm k = prune rm' k) ks ->
  prune_forest rm ph ks = prune_forest rm' ph ks.
Proof.
  intros E H. induction H as [|k r Hk _ IH]; [reflexivity|].
  simpl. rewrite E, Hk, IH. reflexivity.
Qed.

Lemma prune_ext (rm rm' : option head -> head -> bool) :
  (forall q h, rm q h = rm' q h) -> forall n, prune rm n = prune rm' n.
Proof.
  intros E. apply node_induction; [reflexivity|reflexivity|].
  intros h ks H. rewrite !prune_elem. f_equal.
  apply prune_forest_ext_of; assumption.
Qed.

Lemma remove_where_ext (rm rm' : option head -> head -> bool) (doc : list node) :
  (forall q h, rm q h = rm' q h) -> remove_where rm doc = remove_where rm' doc.
Proof.
  intros E. apply prune_forest_ext_of; [exact E|].
  apply Forall_forall. intros k _. apply prune_ext. exact E.
Qed.

Lemma prune_forest_twice_of (rm1 rm2 : option head -> head -> bool)
    (ph : option head) (ks : list node) :
  Forall (fun k => prune rm2 (prune rm1 k) = prune (either rm1 rm2) k) ks ->
  prune_forest rm2 ph (prune_forest rm1 ph ks) = prune_forest (either rm1 rm2) ph ks.
Proof.
  intros H. induction H as [|k r Hk _ IH]; [reflexivity|].
  simpl. unfold either at 1.
  destruct (is_elem k && rm1 ph (head_of k)) eqn:E1.
  - apply andb_prop in E1 as [Ek E1]. rewrite Ek, E1. simpl. exact IH.
  - simpl. rewrite prune_is_elem, prune_head.
    destruct (is_elem k) eqn:Ek; simpl in *.
    + rewrite E1. simpl. destruct (rm2 ph (head_of k)); [exact IH|].
      rewrite Hk, IH. reflexivity.
    + rewrite Hk, IH. reflexivity.
Qed.

Lemma prune_twice (rm1 rm2 : option head -> head -> bool) (n : node) :
  prune rm2 (prune rm1 n) = prune (either rm1 rm2) n.
Proof.
  induction n as [d|d|h ks H] using node_induction; [reflexivity|reflexivity|].
  rewrite !prune_elem. f_equal. apply prune_forest_twice_of. exact H.
Qed.

(** Two removals in a row are one removal by either rule. *)
Lemma remove_where_twice (rm1 rm2 : option head -> head -> bool) (doc : list node) :
  remove_where rm2 (remove_where rm1 doc) = remove_where (either rm1 rm2) doc.
Proof.
  apply prune_forest_twice_of. apply Forall_forall. intros k _. apply prune_twice.
Qed.

Lemma remove_each_spec (ss : list selector) :
  forall rm doc,
    remove_each ss (remove_where rm doc) = remove_where (either rm (any_of ss)) doc.
Proof.
  induction ss as [|s ss IH]; intros rm doc.
  - simpl. apply remove_where_ext. intros q h. unfold either, any_of. simpl.
    rewrite orb_false_r. reflexivity.
  - unfold remove_each in *. simpl. rewrite remove_where_twice, IH.
    apply remove_where_ext. intros q h. unfold either, any_of, by_selector. simpl.
    rewrite orb_assoc. reflexivity.
Qed.

Lemma prune_nothing (n : node) : prune (fun _ _ => false) n = n.
Proof.
  induction n as [d|d|h ks H] using node_induction; [reflexivity|reflexivity|].
  rewrite prune_elem. f_equal.
  induction H as [|k r Hk _ IH]; [reflexivity|].
  simpl. rewrite andb_false_r, Hk, IH. reflexivity.
Qed.

Lemma remove_nothing (doc : list node) : remove_where (fun _ _ => false) doc = doc.
Proof.
  unfold remove_where. induction doc as [|k r IH]; [reflexivity|].
  simpl. rewrite andb_false_r, prune_nothing, IH. reflexivity.
Qed.

(** One pass of the filter is one removal by [noise_rule]. *)
Lemma removeNoiseElements_rule (doc : list node) :
  removeNoiseElements doc = remove_where noise_rule doc.
Proof.
  unfold removeNoiseElements. cbv zeta.
  rewrite <- (remove_nothing doc) at 1.
  rewrite !remove_each_spec, remove_where_twice.
  apply remove_where_ext. intros q h. unfold either, noise_rule.
  generalize (any_of NOISE_SELECTORS q h), (noisy_class h),
    (any_of hidden_selectors q h).
  intros [] [] []; reflexivity.
Qed.

(** [loc_eqb] is equality of places. *)
Lemma head_eqb_eq (a b : head) : head_eqb a b = true <-> a = b.
Proof.
  destruct a as [t a], b as [t' a']. unfold head_eqb. simpl.
  rewrite andb_true_iff, String.eqb_eq, bool_decide_eq_true.
  split; [intros [-> ->]; reflexivity|intros E; injection E; auto].
Qed.

Lemma nodes_eqb_eq_of (ks : list node) :
  Forall (fun k => forall b, node_eqb k b = true <-> k = b) ks ->
  forall ks', nodes_eqb ks ks' = true <-> ks = ks'.
Proof.
  intros H. induction H as [|k r Hk _ IH]; intros [|k' r']; simpl;
    try (split; [discriminate|congruence]); [tauto|].
  rewrite andb_true_iff, Hk, IH.
  split; [intros [-> ->]; reflexivity|intros E; injection E; auto].
Qed.

Lemma node_eqb_elem (h h' : head) (ks ks' : list node) :
  node_eqb (Elem h ks) (Elem h' ks') = head_eqb h h' && nodes_eqb ks ks'.
Proof.
  reflexivity.
Qed.

Lemma node_eqb_eq (a : node) : forall b, node_eqb a b = true <-> a = b.
Proof.
  induction a as [d|d|h ks H] using node_induction; intros [d'|d'|h' ks'];
    try (simpl; split; [discriminate|congruence]).
  - simpl. rewrite String.eqb_eq. split; [intros ->; reflexivity|congruence].
  - simpl. rewrite String.eqb_eq. split; [intros ->; reflexivity|congruence].
  - rewrite node_eqb_elem, andb_true_iff, head_eqb_eq, (nodes_eqb_eq_of ks H).
    split; [intros [-> ->]; reflexivity|intros E; injection E; auto].
Qed.

Lemma nodes_eqb_eq (ks ks' : list node) : nodes_eqb ks ks' = true <-> ks = ks'.
Proof.
  apply nodes_eqb_eq_of. apply Forall_forall. intros k _. apply node_eqb_eq.
Qed.

Lemma loc_eqb_eq (a : loc) : forall b, loc_eqb a b = true <-> a = b.
Proof.
  induction a as [n af u IH] using loc_induction. intros [n' af' u'].
  simpl. rewrite !andb_true_iff, node_eqb_eq, nodes_eqb_eq.
  destruct u as [p|], u' as [p'|].
  - rewrite (IH p eq_refl p').
    split; [intros [[-> ->] ->]; reflexivity|intros E; injection E; auto].
  - split; [intros [_ X]; discriminate|discriminate].
  - split; [intros [_ X]; discriminate|discriminate].
  - split; [intros [[-> ->] _]; reflexivity|intros E; injection E; auto].
Qed.

(** What stays after a removal does not fall under the rule. *)
Lemma subtree_pruned (rm : option head -> head -> bool) (n : node) :
  forall up after l,
    In l (subtree up after (prune rm n)) ->
    rm (hd_of <$> up) (head_of n) = false ->
    rm (parent_head l) (hd_of l) = false.
Proof.
  induction n as [d|d|h ks H] using node_induction; [intros ? ? ? []..|].
  intros up after l. rewrite prune_elem, subtree_elem.
  set (self := Loc (Elem h (prune_forest rm (Some h) ks)) after up).
  intros [<-|Hin] Hrm; [exact Hrm|].
  clear Hrm. revert Hin.
  assert (Hself : hd_of <$> Some self = Some h) by reflexivity.
  revert Hself. generalize (Some self) as u. generalize (Some h) as ph.
  intros ph u Hu. induction H as [|k r Hk _ IH]; [intros []|].
  simpl. destruct (is_elem k && rm ph (head_of k)) eqn:E; [exact IH|].
  simpl. intros Hin. apply in_app_or in Hin as [Hin|Hin]; [|exact (IH Hin)].
  destruct k as [d|d|hk kks]; [destruct Hin..|].
  apply (Hk u _ l Hin). rewrite Hu. exact E.
Qed.

Lemma remove_where_survivors (rm : option head -> head -> bool) (doc : list node)
    (l : loc) :
  In l (all_elements (remove_where rm doc)) -> rm (parent_head l) (hd_of l) = false.
Proof.
  unfold all_elements, remove_where.
  induction doc as [|k r IH]; [intros []|].
  simpl. destruct (is_elem k && rm None (head_of k)) eqn:E; [exact IH|].
  simpl. intros Hin. apply in_app_or in Hin as [Hin|Hin]; [|exact (IH Hin)].
  destruct k as [d|d|hk kks]; [destruct Hin..|].
  apply (subtree_pruned rm _ None _ l Hin). exact E.
Qed.

End TreeFacts.

(** ** Noise removal *)

Section NoiseFacts.

(** C5: a second pass of the noise filter over a filtered document
    changes nothing: it returns the very same tree, so no node is removed
    by it. *)
Theorem removeNoiseElements_idempotent (doc : list node) :
  removeNoiseElements (removeNoiseElements doc) = removeNoiseElements doc.
Proof.
  rewrite !removeNoiseElements_rule, remove_where_twice.
  apply remove_where_ext. intros q h. unfold either. apply orb_diag.
Qed.

Lemma spec_substrings_are_patterns (pattern : string) :
  In pattern spec_noise_substrings -> In pattern noisePatterns.
Proof.
  unfold spec_noise_substrings, noisePatterns. simpl. intros H.
  repeat (destruct H as [H|H]; [subst pattern; tauto|]). destruct H.
Qed.

Lemma attr_or_empty_some (name : string) (h : head) (v : string) :
  attr name h = Some v -> attr_or_empty name h = v.
Proof. unfold attr_or_empty. intros ->. destruct v; reflexivity. Qed.

(** C6, as the code has it: no element is left in the filtered document
    whose class attribute, in lower case, contains one of the noise
    substrings and does not contain "content".  The rule reads the class
    attribute only. *)
Theorem noisy_class_elements_removed (doc : list node) (l : loc)
    (pattern v : string) :
  In l (all_elements (removeNoiseElements doc)) ->
  In pattern spec_noise_substrings ->
  attr "class" (hd_of l) = Some v ->
  Js.includes pattern (Js.toLowerCase v) = true ->
  Js.includes "content" (Js.toLowerCase v) = true.
Proof.
  intros Hin Hp Hv Hinc. rewrite removeNoiseElements_rule in Hin.
  apply remove_where_survivors in Hin. unfold noise_rule in Hin.
  apply orb_false_elim in Hin as [Hin _]. apply orb_false_elim in Hin as [_ Hin].
  unfold noisy_class in Hin. rewrite Hv in Hin.
  rewrite (attr_or_empty_some _ _ _ Hv) in Hin.
  apply spec_substrings_are_patterns in Hp.
  destruct (Js.includes "content" (Js.toLowerCase v)) eqn:E; [reflexivity|].
  exfalso. apply (eq_true_false_abs _ (eq_refl true)).
  rewrite <- Hin. symmetry. apply existsb_exists. exists pattern.
  split; [exact Hp|]. cbv beta. rewrite Hinc. reflexivity.
Qed.

Lemma noisy_class_elements_removed_witness :
  In (Loc shared_box [] None) (all_elements (removeNoiseElements [shared_box]))
  /\ In "share" spec_noise_substrings
  /\ attr "class" (hd_of (Loc shared_box [] None)) = Some "Shared-Content box"
  /\ Js.includes "share" (Js.toLowerCase "Shared-Content box") = true
  /\ Js.includes "content" (Js.toLowerCase "Shared-Content box") = true.
Proof.
  assert (H1 : In (Loc shared_box [] None)
                 (all_elements (removeNoiseElements [shared_box])))
    by (vm_compute; left; reflexivity).
  assert (H2 : In "share" spec_noise_substrings)
    by (vm_compute; tauto).
  assert (H3 : attr "class" (hd_of (Loc shared_box [] None))
               = Some "Shared-Content box") by reflexivity.
  assert (H4 : Js.includes "share" (Js.toLowerCase "Shared-Content box") = true)
    by (vm_compute; reflexivity).
  refine (conj H1 (conj H2 (conj H3 (conj H4 _)))).
  exact (noisy_class_elements_removed [shared_box] (Loc shared_box [] None)
           "share" "Shared-Content box" H1 H2 H3 H4).
Defined.

(** C6, as the claim has it, fails for the id: an element whose id
    contains "widget" and not "content" stays in the document. *)
Lemma noisy_id_element_survives :
  In (Loc widget_by_id [] None) (all_elements (removeNoiseElements [widget_by_id]))
  /\ attr "id" (hd_of (Loc widget_by_id [] None)) = Some "widget-area"
  /\ In "widget" spec_noise_substrings
  /\ Js.includes "widget" (Js.toLowerCase "widget-area") = true
  /\ Js.includes "content" (Js.toLowerCase "widget-area") = false.
Proof.
  repeat split; try (vm_compute; reflexivity); vm_compute; tauto.
Qed.

End NoiseFacts.

(** ** Content of one element *)

Section ElementFacts.




Lemma push_if_nonempty (s x : string) : In x (push_if s) -> x <> EmptyString.
Proof.
  unfold push_if. destruct s; simpl; [intros []|].
  intros [<-|[]]. discriminate.
Qed.

Lemma row_cells_nonempty (tr : loc) (x : string) :
  In x (row_cells tr) -> x <> EmptyString.
Proof.
  unfold row_cells. intros H. apply in_flat_map in H as (cell & _ & H).
  exact (push_if_nonempty _ _ H).
Qed.

Lemma app_nonempty (s t : string) : s <> EmptyString -> s +:+ t <> EmptyString.
Proof. destruct s; [congruence|]. intros _. rewrite app_cons. discriminate. Qed.

Lemma join_nonempty (sep x : string) (xs : list string) :
  x <> EmptyString -> Js.join sep (x :: xs) <> EmptyString.
Proof.
  intros H. destruct xs as [|y ys]; [exact H|].
  change (Js.join sep (x :: y :: ys)) with (x +:+ sep +:+ Js.join sep (y :: ys)).
  apply app_nonempty. exact H.
Qed.

(** The loop over the rows, as a map over the rows that have cells. *)
Lemma rows_of_table (trs : list loc) :
  flat_map
    (fun tr =>
       let cells := row_cells tr in
       if 0 <? length cells then [Js.join " | " cells] else [])
    trs
  = map (Js.join " | ") (filter (fun cells => cells <> []) (map row_cells trs)).
Proof.
  set (f := fun tr =>
              let cells := row_cells tr in
              if 0 <? length cells then [Js.join " | " cells] else []).
  induction trs as [|tr r IH]; [reflexivity|].
  change (flat_map f (tr :: r)) with (f tr ++ flat_map f r). rewrite IH.
  change (map row_cells (tr :: r)) with (row_cells tr :: map row_cells r).
  rewrite filter_cons. unfold f. cbv zeta.
  destruct (row_cells tr) as [|c cs].
  - destruct (decide ([] <> [])) as [N|_]; [congruence|]. reflexivity.
  - destruct (decide (c :: cs <> [])) as [_|N]; [reflexivity|].
    exfalso. apply N. discriminate.
Qed.

(** C7, as the code has it: a table gives one fragment for the whole
    table, with one line for every row that has a cell with text, the
    texts of these cells joined by " | "; rows without such a cell give
    no line, and a table without such a row gives no fragment. *)
Theorem table_is_one_fragment (table : loc) :
  tagName (hd_of table) = "table" ->
  extractElementContent table
  = match table_rows table with
    | [] => []
    | rows => [Js.join nl (map (Js.join " | ") rows)]
    end.
Proof.
  intros H. unfold extractElementContent. rewrite H. cbn -[extractTableContent].
  unfold extractTableContent. rewrite rows_of_table. fold (table_rows table).
  assert (R : Forall (fun cells => cells <> [] /\ forall x, In x cells -> x <> EmptyString)
                (table_rows table)).
  { apply Forall_forall. intros cells Hc. unfold table_rows in Hc.
    apply list_elem_of_filter in Hc as [Hne Hc].
    split; [exact Hne|].
    rewrite list_elem_of_In in Hc. apply in_map_iff in Hc as (tr & <- & _).
    apply row_cells_nonempty. }
  destruct (table_rows table) as [|row rows]; [reflexivity|].
  apply Forall_inv in R as [Hne Hx].
  destruct row as [|c cs]; [congruence|].
  unfold push_if.
  assert (N : Js.join nl (map (Js.join " | ") ((c :: cs) :: rows)) <> EmptyString).
  { change (map (Js.join " | ") ((c :: cs) :: rows))
      with (Js.join " | " (c :: cs) :: map (Js.join " | ") rows).
    apply join_nonempty, join_nonempty, Hx. left. reflexivity. }
  apply truthy_nonempty in N. rewrite N. reflexivity.
Qed.

Lemma table_is_one_fragment_witness :
  tagName (hd_of (Loc two_row_table [] None)) = "table"
  /\ extractElementContent (Loc two_row_table [] None)
     = [Js.join nl (map (Js.join " | ") (table_rows (Loc two_row_table [] None)))].
Proof.
  split; [reflexivity|].
  rewrite (table_is_one_fragment (Loc two_row_table [] None) eq_refl).
  vm_compute. reflexivity.
Defined.

(** C7, as the claim has it, fails: a table with two rows that have
    text gives one fragment, not two. *)
Lemma two_rows_one_fragment :
  length (table_rows (Loc two_row_table [] None)) = 2
  /\ length (extractElementContent (Loc two_row_table [] None)) = 1.
Proof. split; vm_compute; reflexivity. Qed.

End ElementFacts.

(** ** The walk over the siblings of a heading *)

Section WalkFacts.

Lemma add_fragments_app (st : walk_state) (xs ys : list string) :
  add_fragments st (xs ++ ys) = add_fragments (add_fragments st xs) ys.
Proof. unfold add_fragments. apply fold_left_app. Qed.

(** The walk takes the fragments of the visited siblings, in order. *)
Lemma walk_visited (level : num) (siblings : list loc) :
  forall st,
    walk level siblings st
    = add_fragments st (flat_map extractElementContent (visited level siblings)).
Proof.
  induction siblings as [|current rest IH]; intros st; [reflexivity|].
  simpl. unfold stops.
  destruct (stops_as_heading level current); [reflexivity|].
  destruct (stops_as_wrapper level current); [reflexivity|].
  simpl. destruct (is_wrapper current); simpl.
  - apply IH.
  - rewrite add_fragments_app. apply IH.
Qed.

Lemma visited_until (level : num) (pre : list loc) (s : loc) (post : list loc) :
  Forall (fun x => stops level x = false) pre ->
  stops level s = true ->
  visited level (pre ++ s :: post) = filter (fun x => is_wrapper x = false) pre.
Proof.
  intros Hpre Hs. induction Hpre as [|x r Hx _ IH].
  - simpl. rewrite Hs. reflexivity.
  - simpl. rewrite Hx, IH, filter_cons.
    destruct (is_wrapper x); simpl.
    + destruct (decide (true = false)); [discriminate|reflexivity].
    + destruct (decide (false = false)); [reflexivity|congruence].
Qed.

(** The loop as it is written: it ends at the first sibling that is a
    heading of level <= L or an element of class mw-heading whose first
    heading is of level <= L, and takes the content of the siblings
    before it that are not of class mw-heading. *)
Lemma walk_stops_at_first_stop (level : num) (pre : list loc) (s : loc)
    (post : list loc) (st : walk_state) :
  Forall (fun x => stops_as_heading level x || stops_as_wrapper level x = false) pre ->
  stops_as_heading level s || stops_as_wrapper level s = true ->
  walk level (pre ++ s :: post) st
  = add_fragments st
      (flat_map extractElementContent (filter (fun x => is_wrapper x = false) pre)).
Proof.
  intros Hpre Hs. rewrite walk_visited, (visited_until level pre s post Hpre Hs).
  reflexivity.
Qed.

Example walk_stops_at_first_stop_sample :
  following (traverse_from section_heading)
  = firstn 3 (elems_in None section_tail)
    ++ Loc next_wrapper [para "three"] None :: elems_in None [para "three"]
  /\ collectContentAfterHeading section_heading (Some 2) = ["one"; "two"].
Proof.
  assert (E : following (traverse_from section_heading)
              = firstn 3 (elems_in None section_tail)
                ++ Loc next_wrapper [para "three"] None
                   :: elems_in None [para "three"])
    by (vm_compute; reflexivity).
  split; [exact E|].
  unfold collectContentAfterHeading. rewrite E.
  rewrite (walk_stops_at_first_stop (Some 2)
             (firstn 3 (elems_in None section_tail))
             (Loc next_wrapper [para "three"] None)
             (elems_in None [para "three"]) ([], ∅)).
  - vm_compute. reflexivity.
  - vm_compute. repeat constructor.
  - vm_compute. reflexivity.
Defined.

(** Of an element of class mw-heading the loop reads the first heading
    only: one that holds a heading of level 3 and then one of level 2 is
    passed by the walk for a heading of level 2. *)
Example wrapper_with_later_heading_does_not_stop :
  following (traverse_from intro_heading)
  = [Loc double_wrapper [after_wrapper] None; Loc after_wrapper [] None]
  /\ is_wrapper (Loc double_wrapper [after_wrapper] None) = true
  /\ contains_heading_upto (Some 2) (Loc double_wrapper [after_wrapper] None) = true
  /\ collectContentAfterHeading intro_heading (Some 2) = ["after the wrapper"].
Proof. repeat split; vm_compute; reflexivity. Qed.

(** C3: the walk does not stop at every heading wrapper that holds a
    heading of level <= L.  For the siblings h2 "A", p "one",
    div.heading-wrapper holding h2 "B", p "two", the start of the walk
    takes the div for the wrapper of "B" and walks from it, but the walk
    for "A" at level 2 neither stops at the div nor skips it: the
    content of "A" is "one", the text of the wrapper and "two", where
    the claim gives "one" only. *)
Theorem other_wrapper_does_not_stop :
  traverse_from next_heading = wrapped_next_loc
  /\ following (traverse_from first_heading)
     = [Loc (para "one") [wrapped_next; para "two"] None; wrapped_next_loc;
        Loc (para "two") [] None]
  /\ contains_heading_upto (Some 2) wrapped_next_loc = true
  /\ stops (Some 2) wrapped_next_loc = false
  /\ is_wrapper wrapped_next_loc = false
  /\ collectContentAfterHeading first_heading (Some 2) = ["one"; "B"; "two"].
Proof. repeat split; vm_compute; reflexivity. Qed.

(** *** Deduplication *)

Lemma keep_first_filter (P : string -> Prop) `{forall x, Decision (P x)}
    (xs : list string) :
  keep_first (filter P xs) = filter P (keep_first xs).
Proof.
  induction xs as [|x r IH]; [reflexivity|].
  simpl. rewrite !filter_cons. destruct (decide (P x)) as [Hx|Hx].
  - simpl. rewrite IH. f_equal. rewrite !list_filter_filter.
    apply list_filter_iff. intros y. tauto.
  - rewrite IH, list_filter_filter. apply list_filter_iff.
    intros y. split; [|tauto]. intros Hy. split; [exact Hy|].
    intros ->. exact (Hx Hy).
Qed.

Lemma keep_first_NoDup (xs : list string) : NoDup (keep_first xs).
Proof.
  induction xs as [|x r IH]; simpl; [constructor|].
  apply NoDup_cons. split.
  - intros H. apply list_elem_of_filter in H as [H _]. congruence.
  - apply NoDup_filter. exact IH.
Qed.

Lemma add_fragments_content (texts : list string) :
  forall st,
    seen_is_content st ->
    fst (add_fragments st texts)
    = fst st
      ++ keep_first
           (filter (fun x => x ∉ fst st)
              (filter (fun x => x <> EmptyString) (map Js.trim texts))).
Proof.
  induction texts as [|t r IH]; intros [c seen] Inv.
  - simpl. rewrite List.app_nil_r. reflexivity.
  - change (add_fragments (c, seen) (t :: r))
      with (add_fragments (add_fragment (c, seen) t) r).
    change (map Js.trim (t :: r)) with (Js.trim t :: map Js.trim r).
    unfold add_fragment. rewrite (filter_cons (fun x => x <> EmptyString)).
    destruct (Js.truthy (Js.trim t)) eqn:T.
    + apply truthy_nonempty in T.
      destruct (decide (Js.trim t <> EmptyString)) as [_|N]; [|contradiction].
      rewrite filter_cons. simpl fst.
      destruct (decide (Js.trim t ∈ seen)) as [S|S].
      * rewrite bool_decide_true by exact S. simpl.
        destruct (decide (Js.trim t ∉ c)) as [N|_].
        -- exfalso. apply N. apply (Inv (Js.trim t)). exact S.
        -- apply (IH (c, seen) Inv).
      * rewrite bool_decide_false by exact S. simpl.
        destruct (decide (Js.trim t ∉ c)) as [_|N].
        -- rewrite IH.
           ++ simpl. rewrite <- app_assoc. simpl.
              set (R := filter (fun x => x <> EmptyString) (map Js.trim r)).
              apply (f_equal (app c)), (f_equal (cons (Js.trim t))).
              rewrite <- keep_first_filter, list_filter_filter.
              apply (f_equal keep_first). apply list_filter_iff. intros y.
              rewrite not_elem_of_app, list_elem_of_singleton. tauto.
           ++ intros y. simpl. rewrite elem_of_union, elem_of_singleton,
                elem_of_app, list_elem_of_singleton, (Inv y). simpl. tauto.
        -- exfalso. apply N. intros Hc. apply S. apply (Inv (Js.trim t)). exact Hc.
    + simpl.
      destruct (decide (Js.trim t <> EmptyString)) as [N|_].
      * apply truthy_nonempty in N. congruence.
      * apply (IH (c, seen) Inv).
Qed.

(** C8: the content of a heading has no string twice, and it is the
    trimmed fragments of the visited siblings that are not empty, each at
    its first occurrence, in their order. *)
Theorem content_is_deduplicated (heading : loc) (level : num) :
  NoDup (collectContentAfterHeading heading level)
  /\ collectContentAfterHeading heading level
     = keep_first
         (filter (fun x => x <> EmptyString)
            (map Js.trim
               (flat_map extractElementContent
                  (visited level (following (traverse_from heading)))))).
Proof.
  assert (E : collectContentAfterHeading heading level
              = keep_first
                  (filter (fun x => x <> EmptyString)
                     (map Js.trim
                        (flat_map extractElementContent
                           (visited level (following (traverse_from heading))))))).
  { unfold collectContentAfterHeading. rewrite walk_visited.
    rewrite add_fragments_content.
    - simpl. f_equal. rewrite list_filter_filter. apply list_filter_iff.
      intros y. split; [tauto|]. intros Hy. split; [apply not_elem_of_nil|exact Hy].
    - intros y. simpl. split; intros Hy.
      + exfalso. exact (not_elem_of_empty y Hy).
      + exfalso. exact (not_elem_of_nil y Hy). }
  split; [rewrite E; apply keep_first_NoDup|exact E].
Qed.

End WalkFacts.

(** ** The extraction *)

Section ExtractionFacts.

Lemma uniq_go_In {A} (eqb : A -> A -> bool) (xs : list A) :
  forall seen x, In x (uniq_go eqb seen xs) -> In x xs.
Proof.
  induction xs as [|y r IH]; intros seen x; [intros []|].
  simpl. destruct (existsb (eqb y) seen).
  - intros H. right. exact (IH _ _ H).
  - intros [<-|H]; [left; reflexivity|right; exact (IH _ _ H)].
Qed.

(** What [find] returns matches the selector. *)
Lemma find_matches (ss : list selector) (sel : list loc) (l : loc) :
  In l (find ss sel) -> matches ss l = true.
Proof.
  unfold find, uniq_locs. intros H. apply uniq_go_In in H.
  apply in_flat_map in H as (c & _ & H).
  rewrite <- list_elem_of_In in H. apply list_elem_of_filter in H as [H _].
  apply Is_true_true. exact H.
Qed.

Lemma select_matches (ss : list selector) (doc : list node) (l : loc) :
  In l (select ss doc) -> matches ss l = true.
Proof.
  unfold select. intros H.
  rewrite <- list_elem_of_In in H. apply list_elem_of_filter in H as [H _].
  apply Is_true_true. exact H.
Qed.

Lemma matches_tags (ts : list string) (l : loc) :
  matches (tags ts) l = true -> In (tag (hd_of l)) ts.
Proof.
  unfold matches, tags. rewrite existsb_exists. intros (s & Hs & Hm).
  apply in_map_iff in Hs as (t & <- & Ht). simpl in Hm.
  rewrite andb_true_r in Hm. apply String.eqb_eq in Hm. rewrite Hm. exact Ht.
Qed.

(** C4: every heading of the result has a level among 1, 2, 3 and 4 and
    a text that is not empty; the text is the cleaned text of a heading
    element. *)
Theorem headings_have_level_and_text (innerHTML : node -> string)
    (url now : string) (doc : list node) (h : HeadingWithContent) :
  In h (headings (extractSEOContent innerHTML url now doc)) ->
  (level h = Some 1 \/ level h = Some 2 \/ level h = Some 3 \/ level h = Some 4)
  /\ text h <> EmptyString
  /\ exists element : loc, text h = cleanText (text_of element).
Proof.
  unfold extractSEOContent. cbn [headings]. unfold extractHeadingsWithContent.
  intros H. apply in_map_iff in H as (info & <- & H). cbn [level text].
  unfold headingElements in H. apply in_flat_map in H as (element & He & H).
  apply find_matches, matches_tags in He.
  destruct (Js.truthy (cleanText (text_of element))
            && (0 <? String.length (cleanText (text_of element)))
            && negb (isNoiseHeading (cleanText (text_of element)))) eqn:C;
    [|destruct H].
  destruct H as [<-|[]]. cbn [hi_level hi_text].
  apply andb_prop in C as [C _]. apply andb_prop in C as [C _].
  apply truthy_nonempty in C.
  split; [|split; [exact C|exists element; reflexivity]].
  unfold tagName. simpl in He.
  destruct He as [<-|[<-|[<-|[<-|[]]]]]; vm_compute; tauto.
Qed.

Lemma headings_have_level_and_text_witness :
  In example_heading (headings (extractSEOContent text_as_html "u" "t" example_page))
  /\ (level example_heading = Some 1 \/ level example_heading = Some 2
      \/ level example_heading = Some 3 \/ level example_heading = Some 4)
  /\ text example_heading <> EmptyString
  /\ exists element : loc, text example_heading = cleanText (text_of element).
Proof.
  assert (H : In example_heading
                (headings (extractSEOContent text_as_html "u" "t" example_page)))
    by (vm_compute; left; reflexivity).
  exact (conj H (headings_have_level_and_text text_as_html "u" "t" example_page
                   example_heading H)).
Defined.

(** The container the extraction works on. *)
Lemma extract_headings (innerHTML : node -> string) (url now : string)
    (doc : list node) :
  headings (extractSEOContent innerHTML url now doc)
  = extractHeadingsWithContent
      (findContentContainer innerHTML (removeNoiseElements doc)).
Proof. reflexivity. Qed.

(** C1, as the code has it: the fallback content is set exactly when
    there is no heading and one of the strategies of the fallback
    extraction (article containers, paragraphs, text blocks) gives a
    text for the content container. *)
Theorem fallback_only_without_headings (innerHTML : node -> string)
    (url now : string) (doc : list node) :
  is_Some (fallbackContent (extractSEOContent innerHTML url now doc))
  <-> headings (extractSEOContent innerHTML url now doc) = []
      /\ is_Some (extractFallbackContent
                    (findContentContainer innerHTML (removeNoiseElements doc))).
Proof.
  rewrite extract_headings. unfold extractSEOContent. cbn [fallbackContent].
  destruct (extractHeadingsWithContent
              (findContentContainer innerHTML (removeNoiseElements doc)))
    as [|h hs]; simpl.
  - split; [intros H; split; [reflexivity|exact H]|intros [_ H]; exact H].
  - split; [intros [x Hx]; discriminate|intros [H _]; discriminate].
Qed.

Lemma fallback_only_without_headings_witness :
  is_Some (fallbackContent (extractSEOContent text_as_html "u" "t" plain_page)).
Proof.
  apply (proj2 (fallback_only_without_headings text_as_html "u" "t" plain_page)).
  split; [vm_compute; reflexivity|].
  eexists. vm_compute. reflexivity.
Defined.

(** C1, as the claim has it, fails: a page without text has no heading
    and no fallback content. *)
Lemma no_headings_no_fallback :
  headings (extractSEOContent text_as_html "u" "t" blank_page) = []
  /\ fallbackContent (extractSEOContent text_as_html "u" "t" blank_page) = None.
Proof. split; vm_compute; reflexivity. Qed.

(** *** The candidates of the scoring *)

Lemma insert_by_score_In (x c : candidate) (cs : list candidate) :
  In c (insert_by_score x cs) -> c = x \/ In c cs.
Proof.
  induction cs as [|y r IH]; simpl.
  - intros [<-|[]]. left. reflexivity.
  - destruct (Qle_bool (c_score y) (c_score x)).
    + intros [<-|H]; [left; reflexivity|right; exact H].
    + intros [<-|H]; [right; left; reflexivity|].
      destruct (IH H) as [E|E]; [left; exact E|right; right; exact E].
Qed.

Lemma sort_by_score_In (c : candidate) (cs : list candidate) :
  In c (sort_by_score cs) -> In c cs.
Proof.
  induction cs as [|x r IH]; simpl; [trivial|].
  intros H. apply insert_by_score_In in H as [->|H];
    [left; reflexivity|right; exact (IH H)].
Qed.

Lemma score_element_filter (innerHTML : node -> string) (l : loc) (c : candidate) :
  score_element innerHTML l = Some c ->
  c_el c = l /\ 200 <= getTextLength l
  /\ (calculateLinkDensity l <= 1 # 2)%Q.
Proof.
  unfold score_element.
  destruct (getTextLength l <? 200) eqn:E1; [discriminate|].
  destruct (qlt (1 # 2) (calculateLinkDensity l)) eqn:E2; [discriminate|].
  destruct (String.length (innerHTML (el l)) =? 0); [discriminate|].
  intros H. injection H as <-. split; [reflexivity|]. split.
  - apply Nat.ltb_ge. exact E1.
  - unfold qlt in E2. apply negb_false_iff in E2. apply Qle_bool_iff. exact E2.
Qed.

(** C9: every candidate of the scoring is a div, section, article or
    main element whose normalized text has at least 200 characters and
    whose link density is at most 0.5; and the element the scoring
    returns is the body default or the element of one of the
    candidates, so no other element is chosen by it. *)
Theorem phaseB_candidates_are_filtered (innerHTML : node -> string) (doc : list node) :
  (forall c,
      In c (candidates_of innerHTML doc) ->
      In (tag (hd_of (c_el c))) scored_tags
      /\ 200 <= getTextLength (c_el c)
      /\ (calculateLinkDensity (c_el c) <= 1 # 2)%Q)
  /\ (findHighestTextDensityElement innerHTML doc = select [tg "body"] doc
      \/ exists c,
           In c (candidates_of innerHTML doc)
           /\ findHighestTextDensityElement innerHTML doc = [c_el c]).
Proof.
  split.
  - intros c H. unfold candidates_of in H.
    rewrite <- list_elem_of_In in H.
    apply list_elem_of_omap in H as (l & Hl & Hs).
    rewrite list_elem_of_In in Hl.
    apply score_element_filter in Hs as (-> & H200 & Hd).
    split; [|split; assumption].
    apply select_matches, matches_tags in Hl. exact Hl.
  - unfold findHighestTextDensityElement.
    destruct (sort_by_score (candidates_of innerHTML doc)) as [|c r] eqn:E;
      [left; reflexivity|].
    destruct (qlt 0 (c_score c)); [|left; reflexivity].
    right. exists c. split; [|reflexivity].
    apply sort_by_score_In. rewrite E. left. reflexivity.
Qed.

Lemma phaseB_candidates_are_filtered_witness :
  exists c,
    In c (candidates_of text_as_html long_page)
    /\ In (tag (hd_of (c_el c))) scored_tags
    /\ 200 <= getTextLength (c_el c)
    /\ (calculateLinkDensity (c_el c) <= 1 # 2)%Q.
Proof.
  destruct (candidates_of text_as_html long_page) as [|c r] eqn:E;
    [vm_compute in E; discriminate E|].
  exists c.
  assert (H : In c (candidates_of text_as_html long_page))
    by (rewrite E; left; reflexivity).
  rewrite <- E.
  exact (conj H (proj1 (phaseB_candidates_are_filtered text_as_html long_page) c H)).
Defined.

End ExtractionFacts.

(** ** The samples of the specification *)

Example example_page_extracted :
  metaTitle (extractSEOContent text_as_html "u" "t" example_page)
  = Some "Example Domain"
  /\ headings (extractSEOContent text_as_html "u" "t" example_page)
     = [example_heading].
Proof. split; vm_compute; reflexivity. Qed.

Example nested_list_is_one_fragment :
  extractElementContent (Loc nested_list [] None)
  = [bullet +:+ " A" +:+ nl +:+ "  " +:+ bullet +:+ " B"].
Proof. vm_compute. reflexivity. Qed.

Example plain_page_falls_back :
  source <$> fallbackContent (extractSEOContent text_as_html "u" "t" plain_page)
  = Some "paragraphs".
Proof. vm_compute. reflexivity. Qed.

Example marker_inside_marker :
  cleanText "[[edit]edit]" = "[edit]" /\ cleanText "[edit]" = EmptyString.
Proof. split; vm_compute; reflexivity. Qed.

Example duplicates_dropped :
  collectContentAfterHeading repeating_heading (Some 2) = ["same"; "other"; "last"].
Proof. vm_compute. reflexivity. Qed.

Example noisy_page_filtered :
  removeNoiseElements noisy_page
  = page [Elem (Head "article" [("class", "main-content sidebar-layout")])
            [para "Kept"]].
Proof. vm_compute. reflexivity. Qed.

(** * Further properties *)

(** ** The text cleaner *)

Section CleanerMore.

Lemma collapse_length (s : string) :
  forall b, String.length (collapse b s) <= String.length s.
Proof.
  induction s as [|c r IH]; intros b; simpl; [lia|].
  destruct (Js.is_space c); [destruct b|]; simpl;
    [specialize (IH true)|specialize (IH true)|specialize (IH false)]; lia.
Qed.

Lemma trimStart_length (s : string) :
  String.length (Js.trimStart s) <= String.length s.
Proof.
  induction s as [|c r IH]; simpl; [lia|].
  destruct (Js.is_space c); simpl; lia.
Qed.

Lemma trimEnd_length (s : string) :
  String.length (Js.trimEnd s) <= String.length s.
Proof.
  induction s as [|c r IH]; simpl; [lia|].
  destruct (Js.is_space c && Js.is_empty (Js.trimEnd r)); simpl; lia.
Qed.

Lemma trim_length (s : string) : String.length (Js.trim s) <= String.length s.
Proof.
  unfold Js.trim. pose proof (trimEnd_length (Js.trimStart s)).
  pose proof (trimStart_length s). lia.
Qed.

Lemma remove_length (p : Js.regex) (s : string) :
  String.length (Js.replace_all p "" s) <= String.length s.
Proof. apply replace_go_length. Qed.

Lemma strip_markers_length (s : string) :
  String.length (strip_markers s) <= String.length s.
Proof.
  unfold strip_markers.
  pose proof (remove_length re_edit s).
  pose proof (remove_length re_citation (Js.replace_all re_edit "" s)).
  pose proof (remove_length re_note
                (Js.replace_all re_citation "" (Js.replace_all re_edit "" s))).
  pose proof (remove_length re_ref
                (Js.replace_all re_note ""
                   (Js.replace_all re_citation "" (Js.replace_all re_edit "" s)))).
  lia.
Qed.

(** X1: cleaning never lengthens a text. *)
Theorem cleanText_never_lengthens (s : string) :
  String.length (cleanText s) <= String.length s.
Proof.
  unfold cleanText.
  pose proof (trim_length (strip_markers (normalize_ws s))).
  pose proof (strip_markers_length (normalize_ws s)).
  pose proof (collapse_length s false). rewrite <- normalize_ws_collapse in *.
  lia.
Qed.

Lemma tidy_plain (s : string) : forall b, tidy_from b s = true -> plain_spaces s.
Proof.
  induction s as [|c r IH]; intros b H; simpl in *; [trivial|].
  destruct (Js.is_space c).
  - apply andb_prop in H as [H H3]. apply andb_prop in H as [H1 _].
    apply Ascii.eqb_eq in H1. split; [intros _; exact H1|exact (IH true H3)].
  - split; [discriminate|exact (IH false H)].
Qed.

Lemma plain_app (s t : string) :
  plain_spaces s -> plain_spaces t -> plain_spaces (s +:+ t).
Proof.
  induction s as [|c r IH]; [intros _ H; exact H|].
  rewrite app_cons. intros [H1 H2] Ht. split; [exact H1|exact (IH H2 Ht)].
Qed.

Lemma replace_go_plain (p : Js.regex) (rep s : string) :
  plain_spaces rep -> plain_spaces s ->
  forall k, plain_spaces (Js.replace_go p rep k s).
Proof.
  intros Hrep. induction s as [|c r IH]; intros H k; [exact I|].
  destruct H as [H1 H2]. destruct k as [|k].
  - rewrite replace_go_0. destruct (Js.rmatch p (String c r)) as [[|j]|].
    + split; [exact H1|exact (IH H2 0)].
    + apply plain_app; [exact Hrep|exact (IH H2 j)].
    + split; [exact H1|exact (IH H2 0)].
  - rewrite replace_go_S. exact (IH H2 k).
Qed.

Lemma strip_markers_plain (s : string) : plain_spaces s -> plain_spaces (strip_markers s).
Proof.
  intros H. unfold strip_markers, Js.replace_all.
  repeat apply replace_go_plain; try exact I. exact H.
Qed.

Lemma trimStart_plain (s : string) : plain_spaces s -> plain_spaces (Js.trimStart s).
Proof.
  induction s as [|c r IH]; [trivial|]. intros H.
  change (Js.trimStart (String c r))
    with (if Js.is_space c then Js.trimStart r else String c r).
  destruct (Js.is_space c); [apply IH, H|exact H].
Qed.

Lemma trimEnd_plain (s : string) : plain_spaces s -> plain_spaces (Js.trimEnd s).
Proof.
  induction s as [|c r IH]; [trivial|]. intros [H1 H2]. simpl.
  destruct (Js.is_space c && Js.is_empty (Js.trimEnd r)); [exact I|].
  split; [exact H1|exact (IH H2)].
Qed.

Lemma trimEnd_ends_clean (s : string) : ends_clean (Js.trimEnd s) = true.
Proof.
  induction s as [|c r IH]; [reflexivity|]. simpl.
  destruct (Js.is_space c) eqn:E; simpl.
  - destruct (Js.trimEnd r) as [|d t] eqn:T; [reflexivity|]. simpl in *. exact IH.
  - destruct (Js.trimEnd r) as [|d t] eqn:T; simpl; [rewrite E; reflexivity|exact IH].
Qed.

(** X2: a cleaned text has no white space at its start or at its end,
    and the only white-space character in it is the plain space: no line
    break and no tabulator is left. *)
Theorem cleanText_is_trimmed_and_plain (s : string) :
  starts_clean (cleanText s) = true
  /\ ends_clean (cleanText s) = true
  /\ plain_spaces (cleanText s).
Proof.
  unfold cleanText, Js.trim. split; [|split].
  - apply trimEnd_starts_clean, trimStart_starts_clean.
  - apply trimEnd_ends_clean.
  - apply trimEnd_plain, trimStart_plain, strip_markers_plain.
    rewrite normalize_ws_collapse. apply (tidy_plain _ false), collapse_tidy.
Qed.

Lemma collapse_blank (s : string) :
  all_space s = true -> collapse true s = EmptyString.
Proof.
  induction s as [|c r IH]; [reflexivity|]. simpl.
  intros H. apply andb_prop in H as [H1 H2]. rewrite H1. exact (IH H2).
Qed.

(** X3: a text of white space only, the empty text among them, is
    cleaned to the empty string. *)
Theorem cleanText_of_blank (s : string) :
  all_space s = true -> cleanText s = EmptyString.
Proof.
  intros H. unfold cleanText. rewrite normalize_ws_collapse.
  destruct s as [|c r]; [reflexivity|]. simpl in *.
  apply andb_prop in H as [H1 H2]. rewrite H1, (collapse_blank r H2).
  reflexivity.
Qed.

Lemma cleanText_of_blank_witness :
  all_space (String (ascii_of_nat 9) (" " +:+ nl)) = true
  /\ cleanText (String (ascii_of_nat 9) (" " +:+ nl)) = EmptyString.
Proof.
  assert (H : all_space (String (ascii_of_nat 9) (" " +:+ nl)) = true)
    by (vm_compute; reflexivity).
  exact (conj H (cleanText_of_blank _ H)).
Defined.

(** *** When cleaning twice is cleaning once *)

Lemma cleanText_plain (s : string) : plain_spaces (cleanText s).
Proof.
  unfold cleanText, Js.trim.
  apply trimEnd_plain, trimStart_plain, strip_markers_plain.
  rewrite normalize_ws_collapse. apply (tidy_plain _ false), collapse_tidy.
Qed.

Lemma trim_cleanText (s : string) : Js.trim (cleanText s) = cleanText s.
Proof. unfold cleanText. apply trim_idem. Qed.

(** A text with plain spaces only that the normalization does not
    shorten has no two spaces in a row. *)
Lemma same_length_tidy (s : string) :
  forall b,
    plain_spaces s ->
    String.length (collapse b s) = String.length s ->
    tidy_from b s = true.
Proof.
  induction s as [|c r IH]; intros b P L; [reflexivity|].
  destruct P as [Hc Hr]. simpl in *.
  destruct (Js.is_space c).
  - rewrite (Hc eq_refl) in *. destruct b; cbn [String.length] in L.
    + pose proof (collapse_length r true). lia.
    + simpl. apply IH; [exact Hr|lia].
  - cbn [String.length] in L. apply IH; [exact Hr|lia].
Qed.

Lemma strip_same_length (s : string) :
  String.length (strip_markers s) = String.length s -> strip_markers s = s.
Proof.
  destruct markers_positive as (P1 & P2 & P3 & P4).
  unfold strip_markers. intros H.
  pose proof (remove_length re_edit s) as L1.
  pose proof (remove_length re_citation (Js.replace_all re_edit "" s)) as L2.
  pose proof (remove_length re_note
                (Js.replace_all re_citation "" (Js.replace_all re_edit "" s))) as L3.
  pose proof (remove_length re_ref
                (Js.replace_all re_note ""
                   (Js.replace_all re_citation "" (Js.replace_all re_edit "" s))))
    as L4.
  assert (E1 : Js.replace_all re_edit "" s = s)
    by (apply (removes_same_length _ P1); lia).
  rewrite E1 in *.
  assert (E2 : Js.replace_all re_citation "" s = s)
    by (apply (removes_same_length _ P2); lia).
  rewrite E2 in *.
  assert (E3 : Js.replace_all re_note "" s = s)
    by (apply (removes_same_length _ P3); lia).
  rewrite E3 in *.
  apply (removes_same_length _ P4). exact H.
Qed.

(** C2, as the code has it: cleaning a text twice is cleaning it once
    exactly when the text cleaned once has no two white-space characters
    in a row and none of the bracketed markers is left in it, that is,
    when the four removals leave it as it is.  So the cleaner is
    idempotent on every text whose marker removals do not bring two
    spaces together or form a new marker. *)
Theorem cleanText_idempotent_iff (s : string) :
  cleanText (cleanText s) = cleanText s
  <-> tidy_from false (cleanText s) = true
      /\ strip_markers (cleanText s) = cleanText s.
Proof.
  split.
  - intros H.
    pose proof (trim_length (strip_markers (normalize_ws (cleanText s)))) as L1.
    pose proof (strip_markers_length (normalize_ws (cleanText s))) as L2.
    pose proof (collapse_length (cleanText s) false) as L3.
    rewrite <- normalize_ws_collapse in L3.
    assert (L : String.length (cleanText (cleanText s)) = String.length (cleanText s))
      by (rewrite H; reflexivity).
    unfold cleanText at 1 in L.
    assert (T : tidy_from false (cleanText s) = true).
    { apply same_length_tidy; [apply cleanText_plain|].
      rewrite <- normalize_ws_collapse. lia. }
    split; [exact T|].
    rewrite (normalize_ws_fix _ T) in L, L1, L2. apply strip_same_length. lia.
  - intros [T S]. unfold cleanText at 1.
    rewrite (normalize_ws_fix _ T), S. apply trim_cleanText.
Qed.

Lemma cleanText_idempotent_iff_witness :
  cleanText "  History[edit]  of the
    page [12] " = "History of the page"
  /\ cleanText (cleanText "  History[edit]  of the
    page [12] ")
     = cleanText "  History[edit]  of the
    page [12] ".
Proof.
  split; [vm_compute; reflexivity|].
  apply (proj2 (cleanText_idempotent_iff "  History[edit]  of the
    page [12] ")).
  split; vm_compute; reflexivity.
Defined.

End CleanerMore.

(** ** Noise headings and navigation phrases *)

Section CaseFacts.

Lemma lower_facts (c : ascii) :
  Js.lower (Js.lower c) = Js.lower c
  /\ (Js.code (Js.lower c) <? 128)%N = (Js.code c <? 128)%N
  /\ Js.is_digit (Js.lower c) = Js.is_digit c
  /\ Js.is_space (Js.lower c) = Js.is_space c.
Proof.
  destruct c as [[] [] [] [] [] [] [] []]; vm_compute; repeat split; reflexivity.
Qed.

Lemma amatch_lower (a : Js.atom) (c : ascii) :
  caseless_atom a -> Js.amatch a (Js.lower c) = Js.amatch a c.
Proof.
  destruct (lower_facts c) as (L1 & L2 & L3 & L4).
  destruct a as [x|x| | |lo hi]; simpl; intros H; try contradiction.
  - rewrite L1, L2. reflexivity.
  - exact L3.
  - exact L4.
Qed.

Lemma star_lower (a : Js.atom) (k : string -> option nat) :
  caseless_atom a ->
  (forall s, k (Js.toLowerCase s) = k s) ->
  forall s, Js.star a k (Js.toLowerCase s) = Js.star a k s.
Proof.
  intros Ha Hk. induction s as [|c r IH]; simpl; [exact (Hk EmptyString)|].
  rewrite (amatch_lower a c Ha), IH. destruct (Js.amatch a c).
  - destruct (Js.star a k r); [reflexivity|exact (Hk (String c r))].
  - exact (Hk (String c r)).
Qed.

Lemma rmatch_lower (p : Js.regex) :
  caseless p -> forall s, Js.rmatch p (Js.toLowerCase s) = Js.rmatch p s.
Proof.
  intros Hp. induction Hp as [|i p Hi _ IH]; intros s; [reflexivity|].
  destruct i as [a|a|a|a|]; simpl in Hi.
  - destruct s as [|c r]; simpl; [reflexivity|].
    rewrite (amatch_lower a c Hi), IH. reflexivity.
  - destruct s as [|c r]; simpl; [exact (IH EmptyString)|].
    rewrite (amatch_lower a c Hi), IH. destruct (Js.amatch a c).
    + destruct (Js.rmatch p r); [reflexivity|exact (IH (String c r))].
    + exact (IH (String c r)).
  - simpl. apply star_lower; assumption.
  - destruct s as [|c r]; simpl; [reflexivity|].
    rewrite (amatch_lower a c Hi), (star_lower a _ Hi IH). reflexivity.
  - destruct s as [|c r]; simpl; [exact (IH EmptyString)|reflexivity].
Qed.

Lemma trimStart_lower (s : string) :
  Js.trimStart (Js.toLowerCase s) = Js.toLowerCase (Js.trimStart s).
Proof.
  induction s as [|c r IH]; [reflexivity|]. simpl.
  destruct (lower_facts c) as (_ & _ & _ & L4). rewrite L4.
  destruct (Js.is_space c); [exact IH|reflexivity].
Qed.

Lemma trimEnd_lower (s : string) :
  Js.trimEnd (Js.toLowerCase s) = Js.toLowerCase (Js.trimEnd s).
Proof.
  induction s as [|c r IH]; [reflexivity|]. simpl.
  destruct (lower_facts c) as (_ & _ & _ & L4). rewrite L4, IH.
  replace (Js.is_empty (Js.toLowerCase (Js.trimEnd r)))
    with (Js.is_empty (Js.trimEnd r)) by (destruct (Js.trimEnd r); reflexivity).
  destruct (Js.is_space c && Js.is_empty (Js.trimEnd r)); reflexivity.
Qed.

Lemma trim_lower (s : string) :
  Js.trim (Js.toLowerCase s) = Js.toLowerCase (Js.trim s).
Proof. unfold Js.trim. rewrite trimStart_lower, trimEnd_lower. reflexivity. Qed.

Lemma test_whole_any_lower (ps : list Js.regex) (s : string) :
  Forall caseless ps ->
  Js.test_whole_any ps (Js.toLowerCase s) = Js.test_whole_any ps s.
Proof.
  intros H. unfold Js.test_whole_any. induction H as [|p ps Hp _ IH]; [reflexivity|].
  simpl. rewrite IH. f_equal. unfold Js.test_whole.
  rewrite rmatch_lower; [reflexivity|].
  apply Forall_app. split; [exact Hp|]. constructor; [exact I|constructor].
Qed.

Lemma liti_caseless (s : string) :
  Js.toLowerCase s = s -> caseless (Js.liti s).
Proof.
  induction s as [|c r IH]; [constructor|]. simpl. intros H.
  injection H as H1 H2. constructor; [exact H1|exact (IH H2)].
Qed.

Lemma noiseHeadingPatterns_caseless : Forall caseless noiseHeadingPatterns.
Proof.
  unfold noiseHeadingPatterns.
  repeat (apply Forall_cons; split);
    repeat (apply Forall_app; split);
    try (apply liti_caseless; reflexivity);
    try apply Forall_nil;
    repeat (apply Forall_cons; split); try apply Forall_nil;
    try exact I; reflexivity.
Qed.

Lemma litis_caseless (ws : list string) :
  Forall (fun w => Js.toLowerCase w = w) ws -> Forall caseless (map Js.liti ws).
Proof.
  intros H. induction H as [|w ws Hw _ IH]; [constructor|].
  simpl. constructor; [exact (liti_caseless w Hw)|exact IH].
Qed.

Lemma navPatterns_caseless : Forall caseless navPatterns.
Proof.
  unfold navPatterns.
  repeat (apply Forall_app; split);
    try (apply litis_caseless; repeat constructor).
  repeat constructor.
Qed.

(** X4: the test for noise headings ignores the case of the letters: a
    heading is taken for noise exactly when its text in lower case
    is. *)
Theorem isNoiseHeading_ignores_case (text : string) :
  isNoiseHeading (Js.toLowerCase text) = isNoiseHeading text.
Proof.
  unfold isNoiseHeading. rewrite trim_lower.
  apply test_whole_any_lower, noiseHeadingPatterns_caseless.
Qed.

(** X5: the test for navigation phrases ignores the case of the letters
    as well. *)
Theorem isNavigationText_ignores_case (text : string) :
  isNavigationText (Js.toLowerCase text) = isNavigationText text.
Proof.
  unfold isNavigationText. rewrite trim_lower.
  apply test_whole_any_lower, navPatterns_caseless.
Qed.

End CaseFacts.

(** ** Fallback extraction *)

Section FallbackFacts.

Lemma take_length (n : nat) (s : string) :
  String.length (Js.take n s) = Nat.min n (String.length s).
Proof.
  revert s. induction n as [|n IH]; intros [|c r]; simpl; try reflexivity.
  rewrite IH. reflexivity.
Qed.

(** The length of a joined list, when every part is at most [b] long. *)
Lemma join_length (sep : string) (b : nat) (xs : list string) :
  Forall (fun x => String.length x <= b) xs ->
  xs <> [] ->
  String.length (Js.join sep xs) + String.length sep
  <= length xs * (b + String.length sep).
Proof.
  intros H. induction H as [|x r Hx Hr IH]; [congruence|]. intros _.
  destruct r as [|y r'].
  - simpl. lia.
  - change (Js.join sep (x :: y :: r')) with (x +:+ sep +:+ Js.join sep (y :: r')).
    rewrite !length_app.
    assert (IH' := IH ltac:(discriminate)).
    change (length (x :: y :: r')) with (S (length (y :: r'))). lia.
Qed.

Lemma firstn_nonempty {A} (n : nat) (x : A) (xs : list A) :
  firstn (S n) (x :: xs) = x :: firstn n xs.
Proof. reflexivity. Qed.

Lemma article_texts_bounds (articles : list loc) (x : string) :
  In x (article_texts articles) ->
  50 < String.length x /\ String.length x <= 503.
Proof.
  unfold article_texts. intros H. apply in_flat_map in H as (a & _ & H).
  destruct (Js.truthy (cleanText (text_of a))
            && (50 <? String.length (cleanText (text_of a)))) eqn:C; [|destruct H].
  destruct H as [<-|[]]. apply andb_prop in C as [_ C]. apply Nat.ltb_lt in C.
  rewrite length_app, take_length.
  destruct (500 <? String.length (cleanText (text_of a))) eqn:E.
  - apply Nat.ltb_lt in E. change (String.length "...") with 3. lia.
  - apply Nat.ltb_ge in E. change (String.length "") with 0. lia.
Qed.

Lemma article_strategy_result (sels : list selector) (container : list loc)
    (f : FallbackContent) :
  article_strategy sels container = Some f ->
  exists s texts,
    In s sels /\ texts = article_texts (find [s] container) /\ texts <> []
    /\ f = Fallback "article-containers" (Js.join (nl +:+ nl) (firstn 10 texts)).
Proof.
  induction sels as [|s rest IH]; [discriminate|]. simpl.
  destruct ((0 <? length (find [s] container))
            && (0 <? length (article_texts (find [s] container)))) eqn:C.
  - intros H. injection H as <-. exists s, (article_texts (find [s] container)).
    apply andb_prop in C as [_ C]. apply Nat.ltb_lt in C.
    split; [left; reflexivity|]. split; [reflexivity|]. split; [|reflexivity].
    intros E. rewrite E in C. simpl in C. lia.
  - intros H. destruct (IH H) as (s' & texts & Hs & Ht). exists s', texts.
    split; [right; exact Hs|exact Ht].
Qed.

Lemma paragraph_texts_bounds (container : list loc) (x : string) :
  In x (paragraph_texts container) -> 30 < String.length x.
Proof.
  unfold paragraph_texts. intros H. apply in_flat_map in H as (a & _ & H).
  destruct (Js.truthy (cleanText (text_of a))
            && (30 <? String.length (cleanText (text_of a)))) eqn:C; [|destruct H].
  destruct H as [<-|[]]. apply andb_prop in C as [_ C]. apply Nat.ltb_lt in C. exact C.
Qed.

Lemma text_blocks_bounds (container : list loc) (x : string) :
  In x (text_blocks container) ->
  20 < String.length x /\ String.length x < 500 /\ isNavigationText x = false.
Proof.
  unfold text_blocks. intros H. apply in_flat_map in H as (a & _ & H).
  destruct (Js.truthy (cleanText (text_of a))
            && (20 <? String.length (cleanText (text_of a)))
            && (String.length (cleanText (text_of a)) <? 500)
            && negb (isNavigationText (cleanText (text_of a)))) eqn:C; [|destruct H].
  destruct H as [<-|[]].
  apply andb_prop in C as [C C4]. apply andb_prop in C as [C C3].
  apply andb_prop in C as [_ C2].
  apply Nat.ltb_lt in C2, C3. apply negb_true_iff in C4. auto.
Qed.

Lemma unique_strings_head (x : string) (xs : list string) :
  exists r, unique_strings (x :: xs) = x :: r.
Proof. unfold unique_strings. simpl. eexists. reflexivity. Qed.

Lemma length_pos_nonempty (s : string) : 0 < String.length s -> s <> EmptyString.
Proof. destruct s; simpl; [lia|discriminate]. Qed.

(** What the three strategies return. *)
Lemma fallback_cases (container : list loc) (f : FallbackContent) :
  extractFallbackContent container = Some f ->
  (exists texts,
      texts <> [] /\ Forall (fun x => 50 < String.length x <= 503) texts
      /\ f = Fallback "article-containers" (Js.join (nl +:+ nl) (firstn 10 texts)))
  \/ (exists texts,
        texts <> [] /\ Forall (fun x => 30 < String.length x) texts
        /\ f = Fallback "paragraphs" (Js.join (nl +:+ nl) (firstn 20 texts)))
  \/ (exists texts,
        texts <> [] /\ Forall (fun x => 20 < String.length x < 500) texts
        /\ f = Fallback "text-blocks" (Js.join nl (firstn 30 texts))).
Proof.
  unfold extractFallbackContent.
  destruct (article_strategy articleSelectors container) as [g|] eqn:A.
  - intros H. injection H as <-.
    apply article_strategy_result in A as (s & texts & _ & -> & Hne & ->).
    left. eexists. split; [exact Hne|]. split; [|reflexivity].
    apply Forall_forall. intros x Hx. apply list_elem_of_In in Hx.
    exact (article_texts_bounds _ _ Hx).
  - destruct (0 <? length (paragraph_texts container)) eqn:P.
    + intros H. injection H as <-. right. left.
      exists (paragraph_texts container). apply Nat.ltb_lt in P.
      split; [intros E; rewrite E in P; simpl in P; lia|].
      split; [|reflexivity].
      apply Forall_forall. intros x Hx. apply list_elem_of_In in Hx.
      exact (paragraph_texts_bounds _ _ Hx).
    + destruct (0 <? length (text_blocks container)) eqn:T; [|discriminate].
      intros H. injection H as <-. right. right.
      exists (unique_strings (text_blocks container)). apply Nat.ltb_lt in T.
      split; [|split; [|reflexivity]].
      * destruct (text_blocks container) as [|x xs]; [simpl in T; lia|].
        destruct (unique_strings_head x xs) as [r ->]. discriminate.
      * apply Forall_forall. intros x Hx. apply list_elem_of_In in Hx.
        apply uniq_go_In in Hx. apply text_blocks_bounds in Hx. lia.
Qed.

Lemma firstn_join_nonempty (sep : string) (n : nat) (texts : list string) :
  texts <> [] -> Forall (fun x => 0 < String.length x) texts ->
  Js.join sep (firstn (S n) texts) <> EmptyString.
Proof.
  intros Hne H. destruct texts as [|x xs]; [congruence|].
  rewrite firstn_nonempty. apply join_nonempty, length_pos_nonempty.
  apply Forall_inv in H. exact H.
Qed.

(** X6: a fallback content, when there is one, names one of the three
    strategies as its source and has a text that is not empty. *)
Theorem fallback_has_source_and_text (container : list loc) (f : FallbackContent) :
  extractFallbackContent container = Some f ->
  In (source f) ["article-containers"; "paragraphs"; "text-blocks"]
  /\ fb_text f <> EmptyString.
Proof.
  intros H.
  destruct (fallback_cases container f H)
    as [(texts & Hne & Hb & ->)|[(texts & Hne & Hb & ->)|(texts & Hne & Hb & ->)]];
    simpl; (split; [tauto|]); apply firstn_join_nonempty; try exact Hne;
    eapply Forall_impl; try exact Hb; simpl; intros; lia.
Qed.

Lemma firstn_bounded {A} (P : A -> Prop) (n : nat) (xs : list A) :
  Forall P xs -> Forall P (firstn n xs).
Proof.
  intros H. revert n. induction H as [|x r Hx _ IH]; intros [|n]; simpl;
    constructor; auto.
Qed.

Lemma firstn_nil_iff {A} (n : nat) (xs : list A) :
  xs <> [] -> firstn (S n) xs <> [].
Proof. destruct xs; [congruence|discriminate]. Qed.

Lemma fallback_has_source_and_text_witness :
  extractFallbackContent plain_container
  = Some (Fallback "paragraphs"
            "A paragraph of more than thirty characters, without any heading.")
  /\ fb_text (Fallback "paragraphs"
                "A paragraph of more than thirty characters, without any heading.")
     <> EmptyString.
Proof.
  assert (E : extractFallbackContent plain_container
              = Some (Fallback "paragraphs"
                        "A paragraph of more than thirty characters, without any heading."))
    by (vm_compute; reflexivity).
  exact (conj E (proj2 (fallback_has_source_and_text _ _ E))).
Defined.

(** X7: the fallback text of the article containers has at most 5048
    characters (ten texts of at most 503 characters and nine blank
    lines), and that of the text blocks at most 14999 (thirty texts
    below 500 characters and the line breaks between them). *)
Theorem fallback_text_is_bounded (container : list loc) (f : FallbackContent) :
  extractFallbackContent container = Some f ->
  (source f = "article-containers" ->
   String.length (fb_text f) <= 10 * 503 + 9 * 2)
  /\ (source f = "text-blocks" ->
      String.length (fb_text f) <= 30 * 499 + 29).
Proof.
  intros H.
  destruct (fallback_cases container f H)
    as [(texts & Hne & Hb & ->)|[(texts & Hne & Hb & ->)|(texts & Hne & Hb & ->)]];
    simpl; (split; [|]); try discriminate; intros _.
  - pose proof (join_length (nl +:+ nl) 503 (firstn 10 texts)) as J.
    assert (L : length (firstn 10 texts) <= 10) by apply firstn_le_length.
    specialize (J ltac:(apply firstn_bounded; eapply Forall_impl;
                         [exact Hb|simpl; intros; lia])
                  (firstn_nil_iff 9 texts Hne)).
    change (String.length (nl +:+ nl)) with 2 in J. lia.
  - pose proof (join_length nl 499 (firstn 30 texts)) as J.
    assert (L : length (firstn 30 texts) <= 30) by apply firstn_le_length.
    specialize (J ltac:(apply firstn_bounded; eapply Forall_impl;
                         [exact Hb|simpl; intros; lia])
                  (firstn_nil_iff 29 texts Hne)).
    change (String.length nl) with 1 in J. lia.
Qed.

Lemma fallback_text_is_bounded_witness :
  extractFallbackContent article_container
  = Some (Fallback "article-containers" article_words)
  /\ String.length article_words <= 10 * 503 + 9 * 2.
Proof.
  assert (E : extractFallbackContent article_container
              = Some (Fallback "article-containers" article_words))
    by (vm_compute; reflexivity).
  exact (conj E (proj1 (fallback_text_is_bounded _ _ E) eq_refl)).
Defined.

End FallbackFacts.

(** ** Content of a heading and of an element *)

Section ContentMore.

Lemma keep_first_subset (xs : list string) (x : string) :
  x ∈ keep_first xs -> x ∈ xs.
Proof.
  induction xs as [|y r IH]; simpl; [trivial|].
  rewrite !elem_of_cons. intros [->|H]; [left; reflexivity|].
  apply list_elem_of_filter in H as [_ H]. right. exact (IH H).
Qed.

(** The content of a heading as the first occurrences of the trimmed
    fragments. *)
Lemma collect_as_first_occurrences (heading : loc) (level : num) :
  collectContentAfterHeading heading level
  = keep_first
      (filter (fun x => x <> EmptyString)
         (map Js.trim
            (flat_map extractElementContent
               (visited level (following (traverse_from heading)))))).
Proof.
  unfold collectContentAfterHeading. rewrite walk_visited.
  rewrite add_fragments_content.
  - simpl. f_equal. rewrite list_filter_filter. apply list_filter_iff.
    intros y. split; [tauto|]. intros Hy. split; [apply not_elem_of_nil|exact Hy].
  - intros y. simpl. split; intros Hy.
    + exfalso. exact (not_elem_of_empty y Hy).
    + exfalso. exact (not_elem_of_nil y Hy).
Qed.

(** X8: no string of the content of a heading is empty or has white
    space at its start or at its end; so none is white space only. *)
Theorem content_strings_are_trimmed (heading : loc) (level : num) (x : string) :
  In x (collectContentAfterHeading heading level) ->
  x <> EmptyString /\ Js.trim x = x.
Proof.
  rewrite collect_as_first_occurrences, <- list_elem_of_In. intros H.
  apply keep_first_subset, list_elem_of_filter in H as [Hne H].
  split; [exact Hne|].
  apply list_elem_of_In, in_map_iff in H as (t & <- & _). apply trim_idem.
Qed.

Lemma content_strings_are_trimmed_witness :
  In "other" (collectContentAfterHeading repeating_heading (Some 2))
  /\ "other" <> EmptyString /\ Js.trim "other" = "other".
Proof.
  assert (H : In "other" (collectContentAfterHeading repeating_heading (Some 2)))
    by (vm_compute; tauto).
  exact (conj H (content_strings_are_trimmed repeating_heading (Some 2) "other" H)).
Defined.

(** X9: the formatter of an element never gives an empty fragment. *)
Theorem fragments_are_not_empty (element : loc) (x : string) :
  In x (extractElementContent element) -> x <> EmptyString.
Proof.
  unfold extractElementContent.
  destruct (String.eqb (tagName (hd_of element)) "ul"
            || String.eqb (tagName (hd_of element)) "ol");
    [apply push_if_nonempty|].
  intros H. apply in_app_or in H as [H|H]; [|apply in_app_or in H as [H|H]].
  - destruct (one_of text_containers (tagName (hd_of element))); [|destruct H].
    destruct (0 <? length (find1 (tags ["ul"; "ol"]) element)).
    + apply in_app_or in H as [H|H]; [exact (push_if_nonempty _ _ H)|].
      apply in_flat_map in H as (l & _ & H). exact (push_if_nonempty _ _ H).
    + destruct ((0 <? length (find1 [tg "p"] element))
                && negb (String.eqb (tagName (hd_of element)) "p")).
      * apply in_flat_map in H as (l & _ & H). exact (push_if_nonempty _ _ H).
      * exact (push_if_nonempty _ _ H).
  - destruct (String.eqb (tagName (hd_of element)) "dl"); [|destruct H].
    apply in_flat_map in H as (item & _ & H).
    destruct (Js.truthy (cleanText (text_of item))); [|destruct H].
    destruct H as [<-|[]].
    destruct (String.eqb (tagName (hd_of item)) "dt"); discriminate.
  - destruct (String.eqb (tagName (hd_of element)) "table"); [|destruct H].
    exact (push_if_nonempty _ _ H).
Qed.

Lemma fragments_are_not_empty_witness :
  In ("a | b" +:+ nl +:+ "c") (extractElementContent (Loc two_row_table [] None))
  /\ "a | b" +:+ nl +:+ "c" <> EmptyString.
Proof.
  assert (H : In ("a | b" +:+ nl +:+ "c")
                (extractElementContent (Loc two_row_table [] None)))
    by (vm_compute; tauto).
  exact (conj H (fragments_are_not_empty _ _ H)).
Defined.

Lemma num_le_mono (a : num) (l l' : nat) :
  l <= l' -> num_le a (Some l) = true -> num_le a (Some l') = true.
Proof.
  destruct a as [x|]; simpl; [|discriminate]. intros H E.
  apply Nat.leb_le in E. apply Nat.leb_le. lia.
Qed.

Lemma stops_mono (l l' : nat) (current : loc) :
  l <= l' -> stops (Some l) current = true -> stops (Some l') current = true.
Proof.
  intros H. unfold stops, stops_as_heading, stops_as_wrapper.
  intros E. apply orb_true_iff in E as [E|E]; apply orb_true_iff; [left|right];
    apply andb_prop in E as [E1 E2]; rewrite E1; simpl.
  - exact (num_le_mono _ _ _ H E2).
  - destruct (find1 all_heading_tags current) as [|n ns]; [discriminate|].
    exact (num_le_mono _ _ _ H E2).
Qed.

Lemma add_fragment_extends (st : walk_state) (t : string) :
  fst st `prefix_of` fst (add_fragment st t).
Proof.
  destruct st as [c seen]. unfold add_fragment.
  destruct (Js.truthy (Js.trim t) && negb (bool_decide (Js.trim t ∈ seen))); simpl.
  - apply prefix_app_r. reflexivity.
  - reflexivity.
Qed.

Lemma add_fragments_extends (texts : list string) :
  forall st, fst st `prefix_of` fst (add_fragments st texts).
Proof.
  induction texts as [|t r IH]; intros st; [reflexivity|].
  change (add_fragments st (t :: r)) with (add_fragments (add_fragment st t) r).
  etransitivity; [apply add_fragment_extends|apply IH].
Qed.

Lemma visited_beginning (l l' : nat) (siblings : list loc) :
  l <= l' -> visited (Some l') siblings `prefix_of` visited (Some l) siblings.
Proof.
  intros H. induction siblings as [|current rest IH]; [reflexivity|].
  simpl. destruct (stops (Some l') current) eqn:E'; [apply prefix_nil|].
  destruct (stops (Some l) current) eqn:E.
  - apply (stops_mono l l' current H) in E. congruence.
  - apply prefix_app. exact IH.
Qed.

(** X10: over the same siblings the walk for a deeper heading ends no
    later than the walk for a higher one: the content taken for level
    L' is a beginning of the content taken for level L when L <= L'. *)
Theorem deeper_walk_is_a_beginning (l l' : nat) (siblings : list loc)
    (st : walk_state) :
  l <= l' ->
  fst (walk (Some l') siblings st) `prefix_of` fst (walk (Some l) siblings st).
Proof.
  intros H. rewrite !walk_visited.
  destruct (visited_beginning l l' siblings H) as [k ->].
  rewrite flat_map_app, add_fragments_app. apply add_fragments_extends.
Qed.

Lemma deeper_walk_is_a_beginning_witness :
  fst (walk (Some 3) (elems_in None section_tail) ([], ∅)) = ["one"]
  /\ fst (walk (Some 2) (elems_in None section_tail) ([], ∅)) = ["one"; "two"]
  /\ fst (walk (Some 3) (elems_in None section_tail) ([], ∅))
     `prefix_of` fst (walk (Some 2) (elems_in None section_tail) ([], ∅)).
Proof.
  split; [vm_compute; reflexivity|]. split; [vm_compute; reflexivity|].
  apply (deeper_walk_is_a_beginning 2 3). lia.
Defined.

End ContentMore.

(** ** Headings and metadata *)

Section HeadingMore.

(** X11: no heading of the result has a text that the test for noise
    headings accepts ("Edit", "Contents", "12 languages" and the
    like). *)
Theorem headings_are_not_noise (innerHTML : node -> string) (url now : string)
    (doc : list node) (h : HeadingWithContent) :
  In h (headings (extractSEOContent innerHTML url now doc)) ->
  isNoiseHeading (text h) = false.
Proof.
  rewrite extract_headings. unfold extractHeadingsWithContent.
  intros H. apply in_map_iff in H as (info & <- & H). cbn [text].
  unfold headingElements in H. apply in_flat_map in H as (element & _ & H).
  destruct (Js.truthy (cleanText (text_of element))
            && (0 <? String.length (cleanText (text_of element)))
            && negb (isNoiseHeading (cleanText (text_of element)))) eqn:C;
    [|destruct H].
  destruct H as [<-|[]]. cbn [hi_text].
  apply andb_prop in C as [_ C]. apply negb_true_iff in C. exact C.
Qed.

Lemma headings_are_not_noise_witness :
  headings (extractSEOContent text_as_html "u" "t" menu_page)
  = [Heading (Some 2) "History" ["Text of the section."]]
  /\ isNoiseHeading "History" = false.
Proof.
  assert (E : headings (extractSEOContent text_as_html "u" "t" menu_page)
              = [Heading (Some 2) "History" ["Text of the section."]])
    by (vm_compute; reflexivity).
  split; [exact E|].
  apply (headings_are_not_noise text_as_html "u" "t" menu_page
           (Heading (Some 2) "History" ["Text of the section."])).
  rewrite E. left. reflexivity.
Defined.

Lemma first_truthy_in (xs : list (option string)) (t : string) :
  first_truthy xs = Some t -> In (Some t) xs /\ t <> EmptyString.
Proof.
  induction xs as [|[v|] r IH]; simpl; [discriminate| |].
  - destruct (Js.truthy v) eqn:T.
    + intros H. injection H as <-. split; [left; reflexivity|].
      apply truthy_nonempty. exact T.
    + intros H. destruct (IH H) as [H1 H2]. split; [right; exact H1|exact H2].
  - intros H. destruct (IH H) as [H1 H2]. split; [right; exact H1|exact H2].
Qed.

Lemma meta_content_trimmed (key value : string) (doc : list node) (t : string) :
  meta_content key value doc = Some t -> Js.trim t = t.
Proof.
  unfold meta_content.
  destruct (sel_attr "content" (select [Sel [STag "meta"; SEq key value]] doc));
    [|discriminate].
  simpl. intros H. injection H as <-. apply trim_idem.
Qed.

(** X12: a meta title and a meta description, when found, are not empty
    and have no white space at their start or end; a blank title or an
    empty content attribute is passed over for the next source. *)
Theorem metadata_is_trimmed (doc : list node) (t : string) :
  extractMetaTitle doc = Some t \/ extractMetaDescription doc = Some t ->
  t <> EmptyString /\ Js.trim t = t.
Proof.
  intros [H|H]; apply first_truthy_in in H as [H Hne]; (split; [exact Hne|]);
    simpl in H;
    repeat match goal with
           | H : _ \/ _ |- _ => destruct H as [H|H]
           | H : False |- _ => destruct H
           | H : Some _ = Some _ |- _ => injection H as <-; apply trim_idem
           | H : meta_content _ _ _ = Some _ |- _ =>
               exact (meta_content_trimmed _ _ _ _ H)
           end.
Qed.

Lemma metadata_is_trimmed_witness :
  extractMetaTitle described_page = Some "Shared title"
  /\ extractMetaDescription described_page = Some "About  it"
  /\ Js.trim "Shared title" = "Shared title".
Proof.
  assert (E : extractMetaTitle described_page = Some "Shared title")
    by (vm_compute; reflexivity).
  split; [exact E|]. split; [vm_compute; reflexivity|].
  exact (proj2 (metadata_is_trimmed described_page "Shared title" (or_introl E))).
Defined.

End HeadingMore.

(** ** The noise filter *)

Section NoiseMore.

Lemma forest_cons (u : option loc) (k : node) (r : list node) :
  forest u (k :: r) = subtree u r k ++ forest u r.
Proof. reflexivity. Qed.

Lemma prune_forest_cons (rm : option head -> head -> bool) (ph : option head)
    (k : node) (r : list node) :
  prune_forest rm ph (k :: r)
  = if is_elem k && rm ph (head_of k) then prune_forest rm ph r
    else prune rm k :: prune_forest rm ph r.
Proof. reflexivity. Qed.

(** A tree without an element under the rule is left as it is. *)
Lemma prune_fix (rm : option head -> head -> bool) (n : node) :
  forall u af,
    (forall l, In l (subtree u af n) -> rm (parent_head l) (hd_of l) = false) ->
    prune rm n = n.
Proof.
  induction n as [d|d|h ks H] using node_induction; [reflexivity..|].
  intros u af Hall. rewrite subtree_elem in Hall. rewrite prune_elem. f_equal.
  set (self := Loc (Elem h ks) af u) in *.
  assert (Hks : forall l, In l (forest (Some self) ks) ->
                          rm (parent_head l) (hd_of l) = false)
    by (intros l Hl; apply Hall; right; exact Hl).
  clear Hall. change (Some h) with (hd_of <$> Some self).
  revert Hks. generalize (Some self) as v. intros v.
  induction H as [|k r Hk _ IH]; intros Hks; [reflexivity|].
  rewrite forest_cons in Hks. rewrite prune_forest_cons.
  assert (Hr : prune_forest rm (hd_of <$> v) r = r).
  { apply IH. intros l Hl. apply Hks, in_or_app. right. exact Hl. }
  assert (Hp : prune rm k = k).
  { apply (Hk v r). intros l Hl. apply Hks, in_or_app. left. exact Hl. }
  rewrite Hp, Hr.
  destruct k as [d|d|hk kks]; try reflexivity.
  assert (E : rm (hd_of <$> v) hk = false).
  { apply (Hks (Loc (Elem hk kks) r v)). apply in_or_app. left.
    rewrite subtree_elem. left. reflexivity. }
  simpl. rewrite E. reflexivity.
Qed.

Lemma remove_where_fix (rm : option head -> head -> bool) (doc : list node) :
  (forall l, In l (all_elements doc) -> rm (parent_head l) (hd_of l) = false) ->
  remove_where rm doc = doc.
Proof.
  unfold all_elements, remove_where.
  induction doc as [|k r IH]; intros Hall; [reflexivity|].
  rewrite forest_cons in Hall. rewrite prune_forest_cons.
  assert (Hr : prune_forest rm None r = r).
  { apply IH. intros l Hl. apply Hall, in_or_app. right. exact Hl. }
  assert (Hp : prune rm k = k).
  { apply (prune_fix rm k None r). intros l Hl. apply Hall, in_or_app. left. exact Hl. }
  rewrite Hp, Hr.
  destruct k as [d|d|hk kks]; try reflexivity.
  assert (E : rm None hk = false).
  { apply (Hall (Loc (Elem hk kks) r None)). apply in_or_app. left.
    rewrite subtree_elem. left. reflexivity. }
  simpl. rewrite E. reflexivity.
Qed.

(** X13: the noise filter leaves a document as it is exactly when no
    element of the document falls under one of its rules. *)
Theorem filter_keeps_clean_documents (doc : list node) :
  removeNoiseElements doc = doc
  <-> forall l, In l (all_elements doc) -> noise_rule (parent_head l) (hd_of l) = false.
Proof.
  rewrite removeNoiseElements_rule. split.
  - intros E l Hl. rewrite <- E in Hl. exact (remove_where_survivors _ _ _ Hl).
  - apply remove_where_fix.
Qed.

Lemma filter_keeps_clean_documents_witness :
  removeNoiseElements example_page = example_page.
Proof.
  apply (proj2 (filter_keeps_clean_documents example_page)).
  intros l Hl. vm_compute in Hl.
  repeat (destruct Hl as [<-|Hl]; [vm_compute; reflexivity|]). destruct Hl.
Defined.

Lemma any_of_false (ss : list selector) (ph : option head) (h : head) (s : selector) :
  any_of ss ph h = false -> In s ss -> sel_matches s ph h = false.
Proof.
  unfold any_of. intros H Hs.
  destruct (sel_matches s ph h) eqn:E; [|reflexivity].
  rewrite <- H. symmetry. apply existsb_exists. exists s. split; assumption.
Qed.

Lemma in_tail {A} (x y : A) (l : list A) : In x l -> In x (y :: l).
Proof. intros H. right. exact H. Qed.

(** X14: after the filter no nav, footer, header, aside, noscript,
    script, style, iframe or svg element is left in the document, and no
    element with a hidden attribute or with aria-hidden="true". *)
Theorem filter_removes_structural_noise (doc : list node) (l : loc) :
  In l (all_elements (removeNoiseElements doc)) ->
  ~ In (tag (hd_of l))
      ["nav"; "footer"; "header"; "aside"; "noscript"; "script"; "style";
       "iframe"; "svg"]
  /\ attr "hidden" (hd_of l) = None
  /\ attr "aria-hidden" (hd_of l) <> Some "true".
Proof.
  intros H. rewrite removeNoiseElements_rule in H.
  apply remove_where_survivors in H. unfold noise_rule in H.
  apply orb_false_elim in H as [H Hh]. apply orb_false_elim in H as [Hs _].
  split; [|split].
  - intros Hin.
    assert (T : sel_matches (tg (tag (hd_of l))) (parent_head l) (hd_of l) = false).
    { apply (any_of_false NOISE_SELECTORS); [exact Hs|].
      unfold NOISE_SELECTORS.
      repeat (destruct Hin as [<-|Hin];
              [repeat (first [left; reflexivity|apply in_tail])|]).
      destruct Hin. }
    simpl in T. rewrite String.eqb_refl in T. discriminate T.
  - assert (T := any_of_false hidden_selectors _ _ (Sel [SHas "hidden"]) Hh
                   ltac:(left; reflexivity)).
    simpl in T. rewrite andb_true_r in T. apply bool_decide_eq_false in T.
    destruct (attr "hidden" (hd_of l)); [|reflexivity].
    exfalso. apply T. eexists. reflexivity.
  - assert (T := any_of_false hidden_selectors _ _ (Sel [SEq "aria-hidden" "true"]) Hh
                   ltac:(do 3 right; left; reflexivity)).
    simpl in T. rewrite andb_true_r in T. intros E. rewrite E in T.
    discriminate T.
Qed.

Lemma filter_removes_structural_noise_witness :
  In (Loc (para "Kept") [] None) (all_elements (removeNoiseElements mixed_nodes))
  /\ ~ In (tag (hd_of (Loc (para "Kept") [] None)))
        ["nav"; "footer"; "header"; "aside"; "noscript"; "script"; "style";
         "iframe"; "svg"]
  /\ attr "hidden" (hd_of (Loc (para "Kept") [] None)) = None
  /\ attr "aria-hidden" (hd_of (Loc (para "Kept") [] None)) <> Some "true".
Proof.
  assert (H : In (Loc (para "Kept") [] None)
                (all_elements (removeNoiseElements mixed_nodes)))
    by (vm_compute; left; reflexivity).
  exact (conj H (filter_removes_structural_noise mixed_nodes _ H)).
Defined.

(** The filter only deletes. *)
Lemma pruned_heads (rm : option head -> head -> bool) (n : node) :
  forall u af u' af',
    map hd_of (subtree u af (prune rm n)) `sublist_of` map hd_of (subtree u' af' n).
Proof.
  induction n as [d|d|h ks H] using node_induction; [reflexivity..|].
  intros u af u' af'. rewrite prune_elem, !subtree_elem. simpl.
  apply sublist_skip.
  generalize (Some (Loc (Elem h (prune_forest rm (Some h) ks)) af u)) as v.
  generalize (Some (Loc (Elem h ks) af' u')) as v'.
  generalize (Some h) as ph. intros ph v' v.
  induction H as [|k r Hk _ IH]; [reflexivity|].
  rewrite prune_forest_cons, (forest_cons v'), map_app.
  destruct (is_elem k && rm ph (head_of k)).
  - apply sublist_inserts_l. exact IH.
  - rewrite forest_cons, map_app. apply sublist_app; [apply Hk|exact IH].
Qed.

(** X15: the filter only deletes: the elements that are left are
    elements of the document it was given, in the same order and with
    the same tag and attributes. *)
Theorem filter_only_deletes (doc : list node) :
  map hd_of (all_elements (removeNoiseElements doc))
  `sublist_of` map hd_of (all_elements doc).
Proof.
  rewrite removeNoiseElements_rule. unfold all_elements, remove_where.
  generalize (@None head) as ph. intros ph.
  induction doc as [|k r IH]; [reflexivity|].
  rewrite prune_forest_cons, (forest_cons None k r), map_app.
  destruct (is_elem k && noise_rule ph (head_of k)).
  - apply sublist_inserts_l. exact IH.
  - rewrite forest_cons, map_app. apply sublist_app; [apply pruned_heads|exact IH].
Qed.

End NoiseMore.

(** ** The content container *)

Section ContainerMore.

Variable innerHTML : node -> string.

(** The loop that keeps the longest match. *)
Lemma longest_fold (found : list loc) :
  forall b0 m0,
    m0 = getTextLength b0 ->
    let r :=
      fold_left
        (fun '(bestContainer, maxTextLength) e =>
           let textLen := getTextLength e in
           if maxTextLength <? textLen then (e, textLen)
           else (bestContainer, maxTextLength))
        found (b0, m0) in
    snd r = getTextLength (fst r)
    /\ (fst r = b0 \/ In (fst r) found)
    /\ m0 <= snd r
    /\ forall e, In e found -> getTextLength e <= snd r.
Proof.
  induction found as [|x xs IH]; intros b0 m0 E0; cbv zeta; simpl.
  - split; [exact E0|]. split; [left; reflexivity|]. split; [lia|]. intros e [].
  - destruct (m0 <? getTextLength x) eqn:C.
    + apply Nat.ltb_lt in C.
      pose proof (IH x (getTextLength x) eq_refl) as H. cbv zeta in H.
      destruct H as (H1 & H2 & H3 & H4).
      split; [exact H1|].
      split; [right; destruct H2 as [E|H2]; [left; symmetry; exact E|right; exact H2]|].
      split; [lia|]. intros e [<-|He]; [exact H3|exact (H4 e He)].
    + apply Nat.ltb_ge in C.
      pose proof (IH b0 m0 E0) as H. cbv zeta in H.
      destruct H as (H1 & H2 & H3 & H4).
      split; [exact H1|].
      split; [destruct H2 as [E|H2]; [left; exact E|right; right; exact H2]|].
      split; [exact H3|]. intros e [<-|He]; [lia|exact (H4 e He)].
Qed.

(** The loop over all matches, the first among them, and the loop over
    the matches after the first give the same container. *)
Lemma longest_with_first (first : loc) (more : list loc) :
  longest (first :: more) first = longest more first.
Proof. unfold longest. simpl. rewrite Nat.ltb_irrefl. reflexivity. Qed.

Lemma semantic_container_spec (sels : list selector) (doc : list node) :
  match semantic_container sels doc with
  | Some c =>
      exists pre s post,
        sels = pre ++ s :: post
        /\ (forall s' e, In s' pre -> In e (select [s'] doc) -> getTextLength e <= 100)
        /\ In c (select [s] doc)
        /\ 100 < getTextLength c
        /\ forall e, In e (select [s] doc) -> getTextLength e <= getTextLength c
  | None =>
      forall s e, In s sels -> In e (select [s] doc) -> getTextLength e <= 100
  end.
Proof.
  induction sels as [|s rest IH]; [simpl; intros s e []|].
  cbn [semantic_container].
  destruct (select [s] doc) as [|first more] eqn:F.
  - destruct (semantic_container rest doc) as [c|].
    + destruct IH as (pre & s0 & post & -> & Hpre & Hrest).
      exists (s :: pre), s0, post. split; [reflexivity|]. split; [|exact Hrest].
      intros s' e [<-|Hs'] He; [rewrite F in He; destruct He|exact (Hpre s' e Hs' He)].
    + intros s' e [<-|Hs'] He; [rewrite F in He; destruct He|exact (IH s' e Hs' He)].
  - unfold longest.
    pose proof (longest_fold more first (getTextLength first) eq_refl) as H.
    cbv zeta in H.
    destruct (fold_left _ more (first, getTextLength first)) as [b m] eqn:L.
    cbn [fst snd] in H. destruct H as (H1 & H2 & H3 & H4).
    assert (Hb : In b (first :: more))
      by (destruct H2 as [E|H2]; [left; symmetry; exact E|right; exact H2]).
    assert (Hall : forall e, In e (first :: more) -> getTextLength e <= m)
      by (intros e [<-|He]; [exact H3|exact (H4 e He)]).
    destruct (100 <? m) eqn:C.
    + apply Nat.ltb_lt in C. exists [], s, rest. rewrite F.
      split; [reflexivity|]. split; [intros s' e []|].
      split; [exact Hb|]. split; [lia|].
      intros e He. rewrite <- H1. exact (Hall e He).
    + apply Nat.ltb_ge in C.
      destruct (semantic_container rest doc) as [c|].
      * destruct IH as (pre & s0 & post & -> & Hpre & Hrest).
        exists (s :: pre), s0, post. split; [reflexivity|]. split; [|exact Hrest].
        intros s' e [<-|Hs'] He; [|exact (Hpre s' e Hs' He)].
        rewrite F in He. specialize (Hall e He). lia.
      * intros s' e [<-|Hs'] He; [|exact (IH s' e Hs' He)].
        rewrite F in He. specialize (Hall e He). lia.
Qed.

(** X16: the container is chosen by priority: it is the match with the
    longest normalized text of the first selector of the list that has
    a match of more than 100 characters, and every match of the
    selectors before it has at most 100; when no selector has such a
    match, the container is the one the scoring returns. *)
Theorem container_by_priority (doc : list node) :
  (exists pre s post c,
      CONTENT_CONTAINER_SELECTORS = pre ++ s :: post
      /\ (forall s' e, In s' pre -> In e (select [s'] doc) -> getTextLength e <= 100)
      /\ In c (select [s] doc)
      /\ 100 < getTextLength c
      /\ (forall e, In e (select [s] doc) -> getTextLength e <= getTextLength c)
      /\ findContentContainer innerHTML doc = [c])
  \/ ((forall s e,
          In s CONTENT_CONTAINER_SELECTORS -> In e (select [s] doc) ->
          getTextLength e <= 100)
      /\ findContentContainer innerHTML doc
         = findHighestTextDensityElement innerHTML doc).
Proof.
  unfold findContentContainer.
  pose proof (semantic_container_spec CONTENT_CONTAINER_SELECTORS doc) as H.
  destruct (semantic_container CONTENT_CONTAINER_SELECTORS doc) as [c|].
  - left. destruct H as (pre & s & post & E & H1 & H2 & H3 & H4).
    exists pre, s, post, c. auto 10.
  - right. split; [exact H|reflexivity].
Qed.

(** *** The scoring *)










End ContainerMore.

Lemma container_by_priority_witness :
  exists c,
    findContentContainer text_as_html main_page = [c]
    /\ tag (hd_of c) = "main" /\ 100 < getTextLength c.
Proof.
  destruct (container_by_priority text_as_html main_page)
    as [(pre & s & post & c & E & Hpre & Hc & Hlen & Hmax & R)|[_ R]].
  - exists c. split; [exact R|]. split; [|exact Hlen].
    vm_compute in R. injection R as <-. reflexivity.
  - vm_compute in R. discriminate R.
Defined.


(** ** Lists *)

Section ListMore.

(** X18: a list without an [li] child gives no fragment, whatever else
    it holds. *)
Theorem list_without_items_gives_nothing (h : head) (ks : list node)
    (af : list node) (u : option loc) :
  tagName h = "ul" \/ tagName h = "ol" ->
  forallb (fun k => negb (is_item k)) ks = true ->
  extractElementContent (Loc (Elem h ks) af u) = [].
Proof.
  intros Ht Hk.
  assert (F : forall b d, formatList b d (Elem h ks) = EmptyString).
  { intros b d. simpl.
    match goal with
    | |- Js.join nl (?f 0 ks) = _ => assert (E : forall i, f i ks = [])
    end.
    { induction ks as [|k r IH]; intros i; [reflexivity|].
      simpl in Hk. apply andb_prop in Hk as [H1 H2].
      destruct k as [d0|d0|hk lks]; [exact (IH H2 i)..|].
      simpl in H1. apply negb_true_iff in H1. rewrite H1. exact (IH H2 i). }
    rewrite E. reflexivity. }
  unfold extractElementContent. cbn [hd_of el head_of].
  destruct Ht as [E|E]; rewrite E; cbn -[formatList]; rewrite F; reflexivity.
Qed.

Lemma list_without_items_gives_nothing_witness :
  extractElementContent (Loc empty_list [] None) = [].
Proof.
  apply (list_without_items_gives_nothing (Head "ol" [])
           [Dom.Text " "; Elem (Head "p" []) [Dom.Text "stray"]] [] None).
  - right. reflexivity.
  - reflexivity.
Defined.

End ListMore.
